(** * WireViz: a shallow embedding of the harness resolver, the BOM bundle
    aggregation, the entity constructors and the gauge helpers.

    Sources: [src/wireviz.py] (Harness, Connector, Cable, Connection, parse
    and its local [expand]) and [src/wireviz/wv_helper.py] (uncommon_awg,
    awg_equiv, mm2_equiv, expand).

    Python values are modelled as follows: YAML scalars as [scalar]; Python
    exceptions are the constructors of [exn]; a statement that may raise
    returns a [result]. Python dicts whose iteration order matters are
    association lists updated in place ([dict_set]). *)

From Stdlib Require Import ZArith QArith Lia List Bool Ascii String.
From Stdlib Require Import Numbers.DecimalString Numbers.DecimalZ Qabs Permutation Sorted.
Import ListNotations.
Open Scope string_scope.
Open Scope Z_scope.

(** ** Exceptions and the error monad *)

Inductive exn :=
| ValueError
| TypeError
| IndexError
| KeyError
| AttributeError
| ZeroDivisionError
| NotImplementedError
| OverflowError
| Exception (msg : string).

Inductive result (A : Type) :=
| Ok (a : A)
| Err (e : exn).
Arguments Ok {A} a.
Arguments Err {A} e.

Definition bind {A B} (m : result A) (k : A -> result B) : result B :=
  match m with
  | Ok a => k a
  | Err e => Err e
  end.

Notation "'let*' x ':=' m 'in' k" := (bind m (fun x => k))
  (at level 200, x name, m at level 100, right associativity).

Definition raise {A} (e : exn) : result A := Err e.

(** ** Python string primitives on ASCII strings *)

Definition char_eqb (a b : ascii) : bool := Ascii.eqb a b.

(** [c in s] for a one-character [c]. *)
Fixpoint contains_char (c : ascii) (s : string) : bool :=
  match s with
  | EmptyString => false
  | String d r => char_eqb c d || contains_char c r
  end.

(** [s.split(c)] for a one-character separator: always at least one part. *)
Fixpoint split_on (c : ascii) (s : string) : list string :=
  match s with
  | EmptyString => [EmptyString]
  | String d r =>
      if char_eqb c d then EmptyString :: split_on c r
      else match split_on c r with
           | p :: ps => String d p :: ps
           | [] => [String d EmptyString]
           end
  end.

(** [str.isspace] on the ASCII range. *)
Definition is_space (c : ascii) : bool :=
  let n := nat_of_ascii c in
  ((9 <=? n) && (n <=? 13))%nat || ((28 <=? n) && (n <=? 32))%nat.

Fixpoint lstrip (s : string) : string :=
  match s with
  | String c r => if is_space c then lstrip r else s
  | EmptyString => EmptyString
  end.

Fixpoint rev_string (s : string) : string :=
  match s with
  | EmptyString => EmptyString
  | String c r => rev_string r ++ String c EmptyString
  end.

(** The whitespace [int()] skips around a literal: CPython's [Py_ISSPACE],
    the characters 9-13 and the space. ([str.isspace] also holds for 28-31,
    which [int()] does not skip.) *)
Definition int_space (c : ascii) : bool :=
  let n := nat_of_ascii c in ((9 <=? n) && (n <=? 13))%nat || (n =? 32)%nat.

Fixpoint int_lstrip (s : string) : string :=
  match s with
  | String c r => if int_space c then int_lstrip r else s
  | EmptyString => EmptyString
  end.

Definition int_strip (s : string) : string :=
  rev_string (int_lstrip (rev_string (int_lstrip s))).

Fixpoint count_digits (s : string) : nat :=
  match s with
  | EmptyString => 0
  | String c r =>
      let n := nat_of_ascii c in
      if ((48 <=? n) && (n <=? 57))%nat then S (count_digits r) else count_digits r
  end.

Definition digit_value (c : ascii) : option Z :=
  let n := nat_of_ascii c in
  if ((48 <=? n) && (n <=? 57))%nat then Some (Z.of_nat n - 48) else None.

(** The digits of a decimal literal as [int()] reads them: digits with single
    underscores between them; [prev] records that the last character read
    was a digit. *)
Fixpoint parse_digits (s : string) (acc : Z) (prev : bool) : option Z :=
  match s with
  | EmptyString => if prev then Some acc else None
  | String c r =>
      match digit_value c with
      | Some d => parse_digits r (acc * 10 + d) true
      | None => if char_eqb c "_" && prev then parse_digits r acc false else None
      end
  end.

(** [int(s)] for an ASCII string [s]: [None] where Python raises
    [ValueError]. A literal of more than 4300 digits is refused with
    [ValueError] ([sys.get_int_max_str_digits()], CPython 3.11 and the
    security releases of 3.7-3.10). *)
Definition py_int (s : string) : option Z :=
  let t := int_strip s in
  if (4300 <? count_digits t)%nat then None else
  match t with
  | String c r =>
      if char_eqb c "+" then parse_digits r 0 false
      else if char_eqb c "-" then option_map Z.opp (parse_digits r 0 false)
      else parse_digits (String c r) 0 false
  | EmptyString => None
  end.

(** [str(z)] for a Python int. *)
Definition str_Z (z : Z) : string := NilEmpty.string_of_int (Z.to_int z).

(** ** YAML scalars and pins *)

Inductive scalar :=
| YInt (z : Z)
| YStr (s : string)
| YBool (b : bool)
| YNone.

(** A pin specification: a scalar or a list of scalars. *)
Inductive pinspec :=
| YScalar (x : scalar)
| YList (l : list scalar).

(** What [expand] emits: an int or the literal string. *)
Inductive pin :=
| PInt (z : Z)
| PStr (s : string).

Definition py_str (x : scalar) : string :=
  match x with
  | YInt z => str_Z z
  | YStr s => s
  | YBool true => "True"
  | YBool false => "False"
  | YNone => "None"
  end.

(** [range(start, stop, step)] for a non-zero step. *)
Definition py_range (start stop step : Z) : list Z :=
  if 0 <? step then
    map (fun i => start + step * Z.of_nat i)
        (seq 0 (Z.to_nat ((stop - start + step - 1) / step)))
  else if step <? 0 then
    map (fun i => start + step * Z.of_nat i)
        (seq 0 (Z.to_nat ((start - stop - step - 1) / (- step))))
  else [].

Fixpoint map_int (l : list string) : option (list Z) :=
  match l with
  | [] => Some []
  | s :: r =>
      match py_int s with
      | Some z => option_map (cons z) (map_int r)
      | None => None
      end
  end.

(** One iteration of the loop of [expand] (wireviz.py, lines 466-483;
    wv_helper.py, lines 100-117 is the same code): the pins it appends. *)
Definition expand_elem (x : scalar) : result (list pin) :=
  let e := py_str x in
  if contains_char "-" e then
    (* a, b = tuple(map(int, e.split('-'))) *)
    match map_int (split_on "-" e) with
    | Some [a; b] =>
        if a <? b then Ok (map PInt (py_range a (b + 1) 1))
        else if b <? a then Ok (map PInt (py_range a (b - 1) (-1)))
        else Ok [PInt a]
    | _ => raise ValueError
    end
  else
    match py_int e with
    | Some z => Ok [PInt z]
    | None => Ok [PStr e]
    end.

Fixpoint expand_loop (l : list scalar) : result (list pin) :=
  match l with
  | [] => Ok []
  | e :: r =>
      let* a := expand_elem e in
      let* b := expand_loop r in
      Ok (a ++ b)%list
  end.

Definition expand (input : pinspec) : result (list pin) :=
  match input with
  | YScalar x => expand_loop [x]
  | YList l => expand_loop l
  end.


(** The per-element behaviour of [expand] in the words of the spec (§4.2),
    to be compared with [expand_elem]: a "a-b" range of two integers is the
    inclusive range, ascending, descending or a singleton; anything else is
    an int when it parses as one, else the literal string. *)
Definition ascending (a b : Z) : list Z :=
  map (fun i => a + Z.of_nat i) (seq 0 (S (Z.to_nat (b - a)))).

Definition descending (a b : Z) : list Z :=
  map (fun i => a - Z.of_nat i) (seq 0 (S (Z.to_nat (a - b)))).

(** The two integer halves of a hyphenated element, when it has exactly two. *)
Definition hyphen_halves (s : string) : option (Z * Z) :=
  match split_on "-" s with
  | [l; r] =>
      match py_int l, py_int r with
      | Some a, Some b => Some (a, b)
      | _, _ => None
      end
  | _ => None
  end.

Definition expand_elem_spec (x : scalar) : list pin :=
  let s := py_str x in
  match hyphen_halves s with
  | Some (a, b) =>
      map PInt (if a <? b then ascending a b
                else if b <? a then descending a b else [a])
  | None =>
      [match py_int s with Some z => PInt z | None => PStr s end]
  end.

(** ** Association lists with Python dict semantics *)

Section Dict.
Context {V : Type}.

Fixpoint dict_get (k : string) (d : list (string * V)) : option V :=
  match d with
  | [] => None
  | (k', v) :: r => if String.eqb k k' then Some v else dict_get k r
  end.

(** [d[k] = v]: replaces the value in place, or appends a new key. *)
Fixpoint dict_set (k : string) (v : V) (d : list (string * V)) : list (string * V) :=
  match d with
  | [] => [(k, v)]
  | (k', v') :: r => if String.eqb k k' then (k', v) :: r else (k', v') :: dict_set k v r
  end.

Definition dict_mem (k : string) (d : list (string * V)) : bool :=
  match dict_get k d with Some _ => true | None => false end.

Definition dict_keys (d : list (string * V)) : list string := map fst d.

End Dict.

(** ** Connector (wireviz.py, lines 328-366) *)

Record connector_params := {
  p_part_number : option string;
  p_category : option string;
  p_type : option string;
  p_subtype : option string;
  p_pincount : option Z;
  p_pinout : list scalar;
  p_color : option string;
  p_hide_disconnected_pins : bool
}.

Definition pin_eqb (p q : pin) : bool :=
  match p, q with
  | PInt a, PInt b => Z.eqb a b
  | PStr a, PStr b => String.eqb a b
  | _, _ => false
  end.

Record connector := {
  c_name : string;
  c_part_number : option string;
  c_category : option string;
  c_type : option string;
  c_subtype : option string;
  c_pincount : Z;
  c_pinout : list scalar;
  c_color : option string;
  c_hide_disconnected_pins : bool;
  c_loops : list (pin * pin);
  c_visible_pins : list pin   (* the keys of the dict visible_pins *)
}.

(** [['',] * n]: Python list repetition, empty for [n <= 0]. *)
Definition py_repeat {A} (l : list A) (n : Z) : list A :=
  List.concat (repeat l (Z.to_nat n)).

(** The pinout/pincount part of [Connector.__post_init__] (lines 349-357). *)
Definition connector_pins (pinout : list scalar) (pincount : option Z)
  : result (Z * list scalar) :=
  match pinout with
  | _ :: _ =>
      match pincount with
      | Some _ => raise (Exception "You cannot specify both pinout and pincount")
      | None => Ok (Z.of_nat (List.length pinout), pinout)
      end
  | [] =>
      let n := match pincount with
               | None => 1
               | Some k => if Z.eqb k 0 then 1 else k
               end in
      Ok (n, py_repeat [YStr ""] n)
  end.

Definition Connector (name : string) (p : connector_params) : result connector :=
  let* pc := connector_pins (p_pinout p) (p_pincount p) in
  Ok {| c_name := name; c_part_number := p_part_number p;
        c_category := p_category p; c_type := p_type p;
        c_subtype := p_subtype p; c_pincount := fst pc; c_pinout := snd pc;
        c_color := p_color p;
        c_hide_disconnected_pins := p_hide_disconnected_pins p;
        c_loops := []; c_visible_pins := [] |}.

Definition set_visible (p : pin) (vs : list pin) : list pin :=
  if existsb (pin_eqb p) vs then vs else (vs ++ [p])%list.

Definition activate_pin (pn : pin) (c : connector) : connector :=
  {| c_name := c_name c; c_part_number := c_part_number c;
     c_category := c_category c; c_type := c_type c;
     c_subtype := c_subtype c; c_pincount := c_pincount c;
     c_pinout := c_pinout c; c_color := c_color c;
     c_hide_disconnected_pins := c_hide_disconnected_pins c;
     c_loops := c_loops c; c_visible_pins := set_visible pn (c_visible_pins c) |}.

Definition connector_loop (from_pin to_pin : pin) (c : connector) : connector :=
  let vs := if c_hide_disconnected_pins c
            then set_visible to_pin (set_visible from_pin (c_visible_pins c))
            else c_visible_pins c in
  {| c_name := c_name c; c_part_number := c_part_number c;
     c_category := c_category c; c_type := c_type c;
     c_subtype := c_subtype c; c_pincount := c_pincount c;
     c_pinout := c_pinout c; c_color := c_color c;
     c_hide_disconnected_pins := c_hide_disconnected_pins c;
     c_loops := (c_loops c ++ [(from_pin, to_pin)])%list; c_visible_pins := vs |}.

(** ** Cable (wireviz.py, lines 368-436) *)

(** The gauge attribute: absent, a number, or a "value unit" string. *)
Inductive gauge :=
| GNone
| GNum (z : Z)
| GText (s : string).

Record cable_params := {
  cp_part_number : option string;
  cp_category : option string;
  cp_type : option string;
  cp_gauge : gauge;
  cp_gauge_unit : option string;
  cp_length : Z;             (* lengths are modelled on integer values:
                                the sums of [bom] are then exact and
                                [round(_, 3)] returns them unchanged, as
                                Python does for ints; float lengths are
                                outside the model *)
  cp_wirecount : option Z;
  cp_shield : bool;
  cp_colors : list string;
  cp_color_code : option string
}.

Record connection := {
  from_name : option string;
  from_port : option pin;
  via_port : pin;
  to_name : option string;
  to_port : option pin
}.

Record cable := {
  cb_name : string;
  cb_part_number : option string;
  cb_category : option string;
  cb_type : option string;
  cb_gauge : gauge;
  cb_gauge_unit : option string;
  cb_length : Z;
  cb_wirecount : Z;
  cb_shield : bool;
  cb_colors : list string;
  cb_color_code : option string;
  cb_connections : list connection
}.

(** "mm" followed by U+00B2. *)
Definition mm_sq : string := "mm" ++ String (ascii_of_nat 178) EmptyString.

(** [s.replace(old, new)] for a non-empty [old]; [fuel] bounds the length. *)
Fixpoint replace_fuel (fuel : nat) (old new s : string) : string :=
  match fuel with
  | O => s
  | S f =>
      match s with
      | EmptyString => EmptyString
      | String c r =>
          if String.prefix old s
          then new ++ replace_fuel f old new
                 (substring (String.length old) (String.length s) s)
          else String c (replace_fuel f old new r)
      end
  end.

Definition replace (old new s : string) : string :=
  replace_fuel (String.length s) old new s.

(** Lines 389-400: the gauge and its unit. *)
Definition cable_gauge (g : gauge) (unit : option string)
  : result (gauge * option string) :=
  match g with
  | GText s =>
      match split_on " " s with
      | [g'; u] => Ok (GText g', Some (replace "mm2" mm_sq u))
      | _ => raise (Exception "Gauge must be a number, or number and unit separated by a space")
      end
  | GNum _ =>
      match unit with
      | None => Ok (g, Some mm_sq)
      | Some _ => Ok (g, unit)
      end
  | GNone => Ok (g, unit)
  end.

(** [l[:n]] for a Python int [n]. *)
Definition py_slice_to {A} (l : list A) (n : Z) : list A :=
  if 0 <=? n then firstn (Z.to_nat n) l
  else firstn (Z.to_nat (Z.of_nat (List.length l) + n)) l.

Definition truthy_str (s : option string) : bool :=
  match s with
  | Some s' => negb (String.eqb s' "")
  | None => false
  end.

(** Lines 404-423: the wire count and the colors. [color_codes] is the
    table [wv_colors.COLOR_CODES] of named palettes. *)
Definition cable_colors (color_codes : list (string * list string))
  (wirecount : option Z) (colors : list string) (color_code : option string)
  : result (Z * list string) :=
  let implicit :=
    match colors with
    | [] => raise (Exception "Unknown number of wires. Must specify wirecount or colors (implicit length)")
    | _ :: _ => Ok (Z.of_nat (List.length colors), colors)
    end in
  match wirecount with
  | Some n =>
      if Z.eqb n 0 then implicit else
      let* cols :=
        match colors with
        | _ :: _ => Ok colors
        | [] =>
            if truthy_str color_code then
              match color_code with
              | Some cc =>
                  match dict_get cc color_codes with
                  | Some pal => Ok pal
                  | None => raise (Exception "Unknown color code")
                  end
              | None => Ok colors
              end
            else Ok (py_repeat [""] n)
        end in
      let len := Z.of_nat (List.length cols) in
      let* cols' :=
        if len <? n then
          if Z.eqb len 0 then raise ZeroDivisionError
          else Ok (py_repeat cols (n / len + 1))
        else Ok cols in
      Ok (n, py_slice_to cols' n)
  | None => implicit
  end.

Definition Cable (color_codes : list (string * list string)) (name : string)
  (p : cable_params) : result cable :=
  let* gu := cable_gauge (cp_gauge p) (cp_gauge_unit p) in
  let* wc := cable_colors color_codes (cp_wirecount p) (cp_colors p) (cp_color_code p) in
  Ok {| cb_name := name; cb_part_number := cp_part_number p;
        cb_category := cp_category p; cb_type := cp_type p;
        cb_gauge := fst gu; cb_gauge_unit := snd gu; cb_length := cp_length p;
        cb_wirecount := fst wc; cb_shield := cp_shield p; cb_colors := snd wc;
        cb_color_code := cp_color_code p; cb_connections := [] |}.

(** [Cable.connect]: each pin is turned into a 1-tuple by [int2tuple], so
    exactly one [Connection] is appended. *)
Definition cable_connect (fn : option string) (fp : option pin) (vp : pin)
  (tn : option string) (tp : option pin) (c : cable) : result cable :=
  let from_pin := [fp] in
  let via_pin := [vp] in
  let to_pin := [tp] in
  if negb (Nat.eqb (List.length from_pin) (List.length to_pin))
  then raise (Exception "from_pin must have the same number of elements as to_pin")
  else
  Ok {| cb_name := cb_name c; cb_part_number := cb_part_number c;
        cb_category := cb_category c; cb_type := cb_type c;
        cb_gauge := cb_gauge c; cb_gauge_unit := cb_gauge_unit c;
        cb_length := cb_length c; cb_wirecount := cb_wirecount c;
        cb_shield := cb_shield c; cb_colors := cb_colors c;
        cb_color_code := cb_color_code c;
        cb_connections :=
          (cb_connections c ++
           map (fun '(f, v, t) => {| from_name := fn; from_port := f; via_port := v;
                                     to_name := tn; to_port := t |})
               (combine (combine from_pin via_pin) to_pin))%list |}.

(** ** Harness (wireviz.py, lines 12-33) *)

Record harness := {
  h_connectors : list (string * connector);
  h_cables : list (string * cable)
}.

Definition add_connector (h : harness) (name : string) (p : connector_params)
  : result harness :=
  let* c := Connector name p in
  Ok {| h_connectors := dict_set name c (h_connectors h); h_cables := h_cables h |}.

Definition add_cable (color_codes : list (string * list string)) (h : harness)
  (name : string) (p : cable_params) : result harness :=
  let* c := Cable color_codes name p in
  Ok {| h_connectors := h_connectors h; h_cables := dict_set name c (h_cables h) |}.

(** [if name in self.connectors: self.connectors[name].activate_pin(pin)];
    an endpoint is [None] or a (name, pin) pair, as every caller passes. *)
Definition activate_end (e : option (string * pin))
  (cs : list (string * connector)) : list (string * connector) :=
  match e with
  | Some (n, p) =>
      match dict_get n cs with
      | Some c => dict_set n (activate_pin p c) cs
      | None => cs
      end
  | None => cs
  end.

Definition end_name (e : option (string * pin)) : option string :=
  option_map fst e.
Definition end_pin (e : option (string * pin)) : option pin :=
  option_map snd e.

Definition harness_connect (h : harness) (fr : option (string * pin))
  (via_name : string) (via_pin : pin) (to : option (string * pin))
  : result harness :=
  match dict_get via_name (h_cables h) with
  | None => raise KeyError
  | Some cb =>
      let* cb' := cable_connect (end_name fr) (end_pin fr) via_pin
                                (end_name to) (end_pin to) cb in
      let cables := dict_set via_name cb' (h_cables h) in
      let cs := activate_end to (activate_end fr (h_connectors h)) in
      Ok {| h_connectors := cs; h_cables := cables |}
  end.

Definition harness_loop (h : harness) (name : string) (fp tp : pin)
  : result harness :=
  match dict_get name (h_connectors h) with
  | None => raise KeyError
  | Some c =>
      Ok {| h_connectors := dict_set name (connector_loop fp tp c) (h_connectors h);
            h_cables := h_cables h |}
  end.

(** ** The input document and the connection resolver ([parse], lines 446-620) *)

(** An element of a connection record: a bare name or a mapping
    [{designator: pinSpec}] (possibly with zero or several keys). *)
Inductive element :=
| EName (s : string)
| EDict (kvs : list (string * pinspec)).

Record document := {
  doc_connectors : list (string * connector_params);
  doc_cables : list (string * cable_params);
  doc_ferrules : list (string * connector_params);
  doc_connections : list (list element)
}.

Inductive section := SConnectors | SCables | SFerrules.

Definition section_keys (doc : document) (s : section) : list string :=
  match s with
  | SConnectors => dict_keys (doc_connectors doc)
  | SCables => dict_keys (doc_cables doc)
  | SFerrules => dict_keys (doc_ferrules doc)
  end.

Definition in_section (doc : document) (x : string) (s : section) : bool :=
  existsb (String.eqb x) (section_keys doc s).

(** [check_designators(what, where)], lines 486-490. *)
Fixpoint check_designators (doc : document) (what : list string)
  (where_ : list section) : bool :=
  match what, where_ with
  | x :: r, w :: ws => if in_section doc x w then check_designators doc r ws else false
  | _, _ => true
  end.

(** The resolver's state: the harness and [ferrule_counter]. *)
Record state := {
  st_harness : harness;
  st_ferrule_counter : Z
}.

(** [list(c.keys())[0]] with the check that there is exactly one key
    (3-element records, lines 521-527); a bare string has no [keys]. *)
Definition single_key (e : element) : result (string * pinspec) :=
  match e with
  | EName _ => raise AttributeError
  | EDict [kv] => Ok kv
  | EDict _ => raise (Exception "Too many keys")
  end.

Fixpoint connect3 (h : harness) (fn vn tn : string)
  (ts : list (pin * pin * pin)) : result harness :=
  match ts with
  | [] => Ok h
  | (fp, vp, tp) :: r =>
      let* h' := harness_connect h (Some (fn, fp)) vn vp (Some (tn, tp)) in
      connect3 h' fn vn tn r
  end.

(** Lines 519-541. *)
Definition process3 (doc : document) (h : harness) (c0 c1 c2 : element)
  : result harness :=
  let* k0 := single_key c0 in
  let* k1 := single_key c1 in
  let* k2 := single_key c2 in
  let '(from_name, p0) := k0 in
  let '(via_name, p1) := k1 in
  let '(to_name, p2) := k2 in
  if negb (check_designators doc [from_name; via_name; to_name]
                             [SConnectors; SCables; SConnectors])
  then raise (Exception "Bad connection definition (3)")
  else
  let* from_pins := expand p0 in
  let* via_pins := expand p1 in
  let* to_pins := expand p2 in
  if negb (Nat.eqb (List.length from_pins) (List.length via_pins))
     || negb (Nat.eqb (List.length via_pins) (List.length to_pins))
  then raise (Exception "List length mismatch")
  else connect3 h from_name via_name to_name
                (combine (combine from_pins via_pins) to_pins).

(** Lines 545-548: only mappings are checked for their number of keys. *)
Definition check_keys2 (e : element) : result unit :=
  match e with
  | EDict [_] => Ok tt
  | EDict _ => raise (Exception "Too many keys")
  | EName _ => Ok tt
  end.

(** Lines 550-561: a bare name [n] becomes [{n: n}], then its key is read. *)
Definition normalize2 (e : element) : result (string * pinspec) :=
  match e with
  | EName n => Ok (n, YScalar (YStr n))
  | EDict (kv :: _) => Ok kv
  | EDict [] => raise IndexError
  end.

(** Lines 582-586. *)
Fixpoint connect_pairs (h : harness) (con_cbl : bool) (fn tn : string)
  (ps : list (pin * pin)) : result harness :=
  match ps with
  | [] => Ok h
  | (fp, tp) :: r =>
      let* h' := if con_cbl then harness_connect h (Some (fn, fp)) tn tp None
                 else harness_connect h None fn fp (Some (tn, tp)) in
      connect_pairs h' con_cbl fn tn r
  end.

(** Lines 592-593. *)
Fixpoint loop_pairs (h : harness) (name : string) (ps : list (pin * pin))
  : result harness :=
  match ps with
  | [] => Ok h
  | (fp, tp) :: r =>
      let* h' := harness_loop h name fp tp in
      loop_pairs h' name r
  end.

Definition ferrule_id (n : Z) : string := "_F" ++ str_Z n.

(** The keyword arguments [category='ferrule', **ferrule_params]. *)
Definition ferrule_template (p : connector_params) : connector_params :=
  {| p_part_number := p_part_number p; p_category := Some "ferrule";
     p_type := p_type p; p_subtype := p_subtype p;
     p_pincount := p_pincount p; p_pinout := p_pinout p;
     p_color := p_color p;
     p_hide_disconnected_pins := p_hide_disconnected_pins p |}.

(** [h.add_connector(ferrule_id, category='ferrule', **ferrule_params)]:
    a template that sets [category] itself is a duplicate keyword. *)
Definition add_ferrule (h : harness) (fid : string) (p : connector_params)
  : result harness :=
  match p_category p with
  | Some _ => raise TypeError
  | None =>
      add_connector h fid (ferrule_template p)
  end.

(** Lines 608-616. *)
Fixpoint ferrule_loop (st : state) (fer_cbl : bool) (params : connector_params)
  (cable_name : string) (cable_pins : list pin) : result state :=
  match cable_pins with
  | [] => Ok st
  | cable_pin :: r =>
      let counter := st_ferrule_counter st + 1 in
      let fid := ferrule_id counter in
      let* h1 := add_ferrule (st_harness st) fid params in
      let* h2 := if fer_cbl
                 then harness_connect h1 (Some (fid, PInt 1)) cable_name cable_pin None
                 else harness_connect h1 None cable_name cable_pin (Some (fid, PInt 1)) in
      ferrule_loop {| st_harness := h2; st_ferrule_counter := counter |}
                   fer_cbl params cable_name r
  end.

(** Lines 543-616. *)
Definition process2 (doc : document) (st : state) (c0 c1 : element)
  : result state :=
  let* _ := check_keys2 c0 in
  let* _ := check_keys2 c1 in
  let* k0 := normalize2 c0 in
  let* k1 := normalize2 c1 in
  let '(from_name, p0) := k0 in
  let '(to_name, p1) := k1 in
  let con_cbl := check_designators doc [from_name; to_name] [SConnectors; SCables] in
  let cbl_con := check_designators doc [from_name; to_name] [SCables; SConnectors] in
  let con_con := check_designators doc [from_name; to_name] [SConnectors; SConnectors] in
  let fer_cbl := check_designators doc [from_name; to_name] [SFerrules; SCables] in
  let cbl_fer := check_designators doc [from_name; to_name] [SCables; SFerrules] in
  if negb (con_cbl || cbl_con || con_con || fer_cbl || cbl_fer)
  then raise (Exception "Wrong designators")
  else
  let* from_pins := expand p0 in
  let* to_pins := expand p1 in
  let* st1 :=
    if con_cbl || cbl_con || con_con then
      if negb (Nat.eqb (List.length from_pins) (List.length to_pins))
      then raise (Exception "List length mismatch")
      else
      let* h1 :=
        if con_cbl || cbl_con then
          connect_pairs (st_harness st) con_cbl from_name to_name
                        (combine from_pins to_pins)
        else (* con_con *)
          loop_pairs (st_harness st) from_name (combine from_pins to_pins) in
      Ok {| st_harness := h1; st_ferrule_counter := st_ferrule_counter st |}
    else Ok st in
  if fer_cbl || cbl_fer then
    let ferrule_name := if fer_cbl then from_name else to_name in
    let cable_name := if fer_cbl then to_name else from_name in
    let cable_pins := if fer_cbl then to_pins else from_pins in
    match dict_get ferrule_name (doc_ferrules doc) with
    | None => raise KeyError
    | Some params => ferrule_loop st1 fer_cbl params cable_name cable_pins
    end
  else Ok st1.

Definition process_record (doc : document) (st : state) (con : list element)
  : result state :=
  match con with
  | [c0; c1; c2] =>
      let* h := process3 doc (st_harness st) c0 c1 c2 in
      Ok {| st_harness := h; st_ferrule_counter := st_ferrule_counter st |}
  | [c0; c1] => process2 doc st c0 c1
  | _ => raise (Exception "Wrong number of connection parameters")
  end.

Fixpoint process_records (doc : document) (st : state) (cons : list (list element))
  : result state :=
  match cons with
  | [] => Ok st
  | con :: r =>
      let* st' := process_record doc st con in
      process_records doc st' r
  end.

Fixpoint add_connectors (h : harness) (l : list (string * connector_params))
  : result harness :=
  match l with
  | [] => Ok h
  | (k, o) :: r => let* h' := add_connector h k o in add_connectors h' r
  end.

Fixpoint add_cables (color_codes : list (string * list string)) (h : harness)
  (l : list (string * cable_params)) : result harness :=
  match l with
  | [] => Ok h
  | (k, o) :: r => let* h' := add_cable color_codes h k o in add_cables color_codes h' r
  end.

(** Lines 446-517: the harness with the declared connectors and cables. *)
Definition declare (color_codes : list (string * list string)) (doc : document)
  : result harness :=
  let* h0 := add_connectors {| h_connectors := []; h_cables := [] |} (doc_connectors doc) in
  add_cables color_codes h0 (doc_cables doc).

(** [parse] up to the resolved harness (the rendering call is not modelled). *)
Definition parse (color_codes : list (string * list string)) (doc : document)
  : result state :=
  let* h1 := declare color_codes doc in
  process_records doc {| st_harness := h1; st_ferrule_counter := 0 |}
                  (doc_connections doc).

(** ** BOM: bundle wires ([Harness.bom], wireviz.py, lines 279-307) *)

Record wire_record := {
  w_gauge : gauge;
  w_gauge_unit : option string;
  w_length : Z;
  w_color : string;
  w_designators : list string
}.

Record bom_item := {
  bi_item : string;
  bi_qty : Z;
  bi_unit : string;
  bi_designators : list string
}.

Definition opt_str_eqb (a b : option string) : bool :=
  match a, b with
  | Some x, Some y => String.eqb x y
  | None, None => true
  | _, _ => false
  end.

Definition gauge_eqb (a b : gauge) : bool :=
  match a, b with
  | GNone, GNone => true
  | GNum x, GNum y => Z.eqb x y
  | GText x, GText y => String.eqb x y
  | _, _ => false
  end.

(** The keys of a [Counter] over [l], in order of first occurrence. *)
Definition counter_keys {K} (eqb : K -> K -> bool) (l : list K) : list K :=
  fold_left (fun acc k => if existsb (eqb k) acc then acc else (acc ++ [k])%list) l [].

Definition bundle_type (c : cable) : option string * gauge * option string * Z :=
  (cb_category c, cb_gauge c, cb_gauge_unit c, cb_length c).

Definition bundle_type_eqb (a b : option string * gauge * option string * Z) : bool :=
  let '(c1, g1, u1, l1) := a in
  let '(c2, g2, u2, l2) := b in
  opt_str_eqb c1 c2 && gauge_eqb g1 g2 && opt_str_eqb u1 u2 && Z.eqb l1 l2.

(** Lines 280-291. *)
Definition bundle_wirelist (cables : list (string * cable)) : list wire_record :=
  let types := counter_keys bundle_type_eqb (map (fun kv => bundle_type (snd kv)) cables) in
  flat_map (fun ty =>
    let items := filter (fun kv => bundle_type_eqb (bundle_type (snd kv)) ty) cables in
    match items with
    | (_, shared) :: _ =>
        if opt_str_eqb (cb_category shared) (Some "bundle") then
          flat_map (fun kv =>
            map (fun color =>
                   {| w_gauge := cb_gauge shared; w_gauge_unit := cb_gauge_unit shared;
                      w_length := cb_length shared; w_color := color;
                      w_designators := dict_keys items |})
                (cb_colors (snd kv)))
            items
        else []
    | [] => []
    end) types.

Definition wire_type (w : wire_record) : gauge * option string * string :=
  (w_gauge w, w_gauge_unit w, w_color w).

Definition wire_type_eqb (a b : gauge * option string * string) : bool :=
  let '(g1, u1, c1) := a in
  let '(g2, u2, c2) := b in
  gauge_eqb g1 g2 && opt_str_eqb u1 u2 && String.eqb c1 c2.

Fixpoint insert_sorted (s : string) (l : list string) : list string :=
  match l with
  | [] => [s]
  | x :: r =>
      match String.compare s x with
      | Lt => s :: l
      | _ => x :: insert_sorted s r
      end
  end.

(** [list.sort()] on strings. *)
Definition sort_strings (l : list string) : list string :=
  fold_right insert_sorted [] l.

Definition gauge_str (g : gauge) : string :=
  match g with
  | GNone => "None"
  | GNum z => str_Z z
  | GText s => s
  end.

Definition gauge_truthy (g : gauge) : bool :=
  match g with
  | GNone => false
  | GNum z => negb (Z.eqb z 0)
  | GText s => negb (String.eqb s "")
  end.

Definition opt_str (s : option string) : string :=
  match s with Some x => x | None => "None" end.

(** Lines 293-307 (the quantity is an integer sum, so [round(_, 3)] is the
    identity on it). *)
Definition bundle_items (cables : list (string * cable)) : list bom_item :=
  let wirelist := bundle_wirelist cables in
  let types := counter_keys wire_type_eqb (map wire_type wirelist) in
  flat_map (fun ty =>
    let items := filter (fun w => wire_type_eqb (wire_type w) ty) wirelist in
    match items with
    | shared :: _ =>
        let designators := flat_map w_designators items in
        let designators := counter_keys String.eqb designators in
        let designators := sort_strings designators in
        let total_length := fold_left Z.add (map w_length items) 0 in
        let name := "Wire, " ++
          (if gauge_truthy (w_gauge shared)
           then gauge_str (w_gauge shared) ++ " " ++ opt_str (w_gauge_unit shared)
           else "") ++
          (if negb (String.eqb (w_color shared) "") then ", " ++ w_color shared else "") in
        [{| bi_item := name; bi_qty := total_length; bi_unit := "m";
            bi_designators := designators |}]
    | [] => []
    end) types.

(** ** Gauge conversions (wv_helper.py, lines 8-67) *)

Definition uncommon_awg : list (string * string) :=
  [("0000", "4/0"); ("000", "3/0"); ("00", "2/0"); ("0", "1/0")].

Definition ascii_lower (c : ascii) : ascii :=
  let n := nat_of_ascii c in
  if ((65 <=? n) && (n <=? 90))%nat then ascii_of_nat (n + 32) else c.

Fixpoint lower (s : string) : string :=
  match s with
  | EmptyString => EmptyString
  | String c r => String (ascii_lower c) (lower r)
  end.

Definition is_digit (c : ascii) : bool :=
  match digit_value c with Some _ => true | None => false end.

Fixpoint take_digits (s : string) : string :=
  match s with
  | String c r => if is_digit c then String c (take_digits r) else EmptyString
  | EmptyString => EmptyString
  end.

(** [re.findall(r'\d+', s)[0]]: [None] where the list is empty. *)
Fixpoint first_digit_run (s : string) : option string :=
  match s with
  | EmptyString => None
  | String c r => if is_digit c then Some (take_digits s) else first_digit_run r
  end.

(** [s.find(c)] for a character that occurs in [s]. *)
Fixpoint find_char (c : ascii) (s : string) : nat :=
  match s with
  | EmptyString => 0
  | String d r => if char_eqb c d then 0 else S (find_char c r)
  end.

(** [awg_equiv(mm2, strict)], lines 26-46. The float computation from the
    parsed integer onwards (lines 34-46) is the argument [awg_of]. *)
Definition awg_equiv (awg_of : Z -> string -> result string) (mm2 strict : string)
  : result string :=
  let strict := lower strict in
  if negb (String.eqb strict "yes") && negb (String.eqb strict "no")
  then raise ValueError
  else
  match first_digit_run mm2 with
  | None => raise IndexError      (* [][0], not caught by [except ValueError] *)
  | Some ds =>
      match py_int ds with
      | Some n => awg_of n strict
      | None => Ok ("Unknown (" ++ mm2 ++ ")")
      end
  end.

(** What [mm2_equiv] returns: a number of [common_mm2] or a string. *)
Inductive mm2_out :=
| MNum (q : Q)
| MStr (s : string).

Definition common_mm2 : list Q :=
  [22#100; 23#100; 34#100; 5#10; 75#100; 1; 15#10; 25#10; 4; 6; 10; 16; 25; 35;
   50; 70; 95; 120; 150; 185; 240; 300; 400; 500; 630; 800; 1000; 1200; 1400;
   1600; 1800; 2000; 2500]%Q.

(** [closest(lst, K)], lines 70-71: [min] over the indices keeps the first
    element at minimal distance, replacing it only by a strictly closer one.
    The float [abs(lst[i] - K)] is [dist (lst[i]) K] (a float is the
    rational it denotes); [min] of an empty range raises ([None]). *)
Definition closest (dist : Q -> Q -> Q) (lst : list Q) (K : Q) : option Q :=
  fold_left (fun best x =>
               match best with
               | None => Some x
               | Some b => if negb (Qle_bool (dist b K) (dist x K)) then Some x else best
               end) lst None.

(** [mm2_equiv(awg, strict)], lines 49-67. The float computation of the
    rounded area for a gauge number [n] (lines 60-61) is [area n], which
    fails where the float arithmetic raises (the division [(36-n)/39]
    raises OverflowError for n of 311 digits and more); the float distance
    of [closest] is [dist]; [str] of a float is [qstr]. *)
Definition mm2_equiv (area : Z -> result Q) (dist : Q -> Q -> Q) (qstr : Q -> string)
  (awg strict : string) : result mm2_out :=
  let strict := lower strict in
  let awg := match dict_get awg uncommon_awg with Some a => a | None => awg end in
  let from_n (n : Z) :=
    let* mm2 := area n in
    if String.eqb strict "yes" then
      match closest dist common_mm2 mm2 with
      | Some q => Ok (MNum q)
      | None => raise ValueError
      end
    else if String.eqb strict "no" then Ok (MStr (qstr mm2))
    else raise NotImplementedError in
  if contains_char "/" awg then
    (* n = 1 - int(awg[awg.find('/')]) *)
    match py_int (substring (find_char "/" awg) 1 awg) with
    | Some d => from_n (1 - d)
    | None => raise ValueError
    end
  else
    match first_digit_run awg with
    | None => raise IndexError      (* [][0], not caught by [except ValueError] *)
    | Some ds =>
        match py_int ds with
        | Some k => from_n k
        | None => Ok (MStr ("Unknown (" ++ awg ++ ")"))
        end
    end.

(** An area computation for the examples: the exact gauge number as the
    area, failing with OverflowError above 1000. *)
Definition capped_area (n : Z) : result Q :=
  if 1000 <? n then Err OverflowError else Ok (inject_Z n).

(** ** BOM: connectors and cables ([Harness.bom], wireviz.py, lines 242-278) *)

(** A BOM value as [bom_list] and [flatten2d] see it: a string, an int or a
    list of strings. *)
Inductive cell :=
| CStr (s : string)
| CInt (z : Z)
| CList (l : list string).

(** A BOM item: the dict with keys item, qty, unit, designators and the
    optional key 'part number'. *)
Record bom_entry := {
  be_item : string;
  be_qty : Z;
  be_unit : string;
  be_designators : cell;
  be_part_number : option string
}.

(** [sorted(l, key=lambda k: k['item'])]: a stable sort on the item names. *)
Fixpoint insert_entry (e : bom_entry) (l : list bom_entry) : list bom_entry :=
  match l with
  | [] => [e]
  | x :: r =>
      match String.compare (be_item e) (be_item x) with
      | Lt => e :: l
      | _ => x :: insert_entry e r
      end
  end.

Definition sort_entries (l : list bom_entry) : list bom_entry :=
  fold_left (fun acc e => insert_entry e acc) l [].

Definition connector_type (c : connector) : option string * option string * Z :=
  (c_type c, c_subtype c, c_pincount c).

Definition connector_type_eqb (a b : option string * option string * Z) : bool :=
  let '(t1, s1, p1) := a in
  let '(t2, s2, p2) := b in
  opt_str_eqb t1 t2 && opt_str_eqb s1 s2 && Z.eqb p1 p2.

(** Lines 246-262; the list is sorted again after every append. *)
Definition bom_connectors (cs : list (string * connector)) : list bom_entry :=
  let types := counter_keys connector_type_eqb (map (fun kv => connector_type (snd kv)) cs) in
  fold_left (fun acc ty =>
    let items := filter (fun kv => connector_type_eqb (connector_type (snd kv)) ty) cs in
    match items with
    | (_, shared) :: _ =>
        let designators := sort_strings (dict_keys items) in
        let is_ferrule := opt_str_eqb (c_category shared) (Some "ferrule") in
        let name := "Connector" ++
          (if truthy_str (c_type shared) then ", " ++ opt_str (c_type shared) else "") ++
          (if truthy_str (c_subtype shared) then ", " ++ opt_str (c_subtype shared) else "") ++
          (if negb is_ferrule then ", " ++ str_Z (c_pincount shared) ++ " pins" else "") ++
          (if truthy_str (c_color shared) then ", " ++ opt_str (c_color shared) else "") in
        let item := {| be_item := name; be_qty := Z.of_nat (List.length designators);
                       be_unit := "";
                       be_designators := if negb is_ferrule then CList designators else CStr "";
                       be_part_number := c_part_number shared |} in
        sort_entries (acc ++ [item])%list
    | [] => acc
    end) types [].

Definition cable_type (c : cable) : option string * gauge * option string * Z * bool :=
  (cb_category c, cb_gauge c, cb_gauge_unit c, cb_wirecount c, cb_shield c).

Definition cable_type_eqb (a b : option string * gauge * option string * Z * bool) : bool :=
  let '(c1, g1, u1, w1, s1) := a in
  let '(c2, g2, u2, w2, s2) := b in
  opt_str_eqb c1 c2 && gauge_eqb g1 g2 && opt_str_eqb u1 u2 && Z.eqb w1 w2 && Bool.eqb s1 s2.

(** Lines 265-278 (not sorted here). *)
Definition bom_cable_items (cbs : list (string * cable)) : list bom_entry :=
  let types := counter_keys cable_type_eqb (map (fun kv => cable_type (snd kv)) cbs) in
  flat_map (fun ty =>
    let items := filter (fun kv => cable_type_eqb (cable_type (snd kv)) ty) cbs in
    match items with
    | (_, shared) :: _ =>
        if negb (opt_str_eqb (cb_category shared) (Some "bundle")) then
          let designators := sort_strings (dict_keys items) in
          let total_length := fold_left Z.add (map (fun kv => cb_length (snd kv)) items) 0 in
          let name := "Cable, " ++ str_Z (cb_wirecount shared) ++
            (if gauge_truthy (cb_gauge shared)
             then " x " ++ gauge_str (cb_gauge shared) ++ " " ++ opt_str (cb_gauge_unit shared)
             else " wires") ++
            (if cb_shield shared then " shielded" else "") in
          [{| be_item := name; be_qty := total_length; be_unit := "m";
              be_designators := CList designators;
              be_part_number := cb_part_number shared |}]
        else []
    | [] => []
    end) types.

Definition entry_of_item (it : bom_item) : bom_entry :=
  {| be_item := bi_item it; be_qty := bi_qty it; be_unit := bi_unit it;
     be_designators := CList (bi_designators it); be_part_number := None |}.

(** [Harness.bom()], lines 238-309: the bundle wire items are appended to the
    cable items, the list being sorted after every append. *)
Definition bom (h : harness) : list bom_entry :=
  let bom_cables :=
    fold_left (fun acc it => sort_entries (acc ++ [entry_of_item it])%list)
              (bundle_items (h_cables h)) (bom_cable_items (h_cables h)) in
  (bom_connectors (h_connectors h) ++ bom_cables)%list.

Definition ascii_upper (c : ascii) : ascii :=
  let n := nat_of_ascii c in
  if ((97 <=? n) && (n <=? 122))%nat then ascii_of_nat (n - 32) else c.

(** [str.capitalize()] on ASCII strings. *)
Definition capitalize (s : string) : string :=
  match s with
  | EmptyString => EmptyString
  | String c r => String (ascii_upper c) (lower r)
  end.

Definition has_part_number (e : bom_entry) : bool :=
  match be_part_number e with Some _ => true | None => false end.

(** [item.get(key, '')]. *)
Definition entry_get (e : bom_entry) (key : string) : cell :=
  if String.eqb key "item" then CStr (be_item e)
  else if String.eqb key "qty" then CInt (be_qty e)
  else if String.eqb key "unit" then CStr (be_unit e)
  else if String.eqb key "designators" then be_designators e
  else if String.eqb key "part number" then
    match be_part_number e with Some p => CStr p | None => CStr "" end
  else CStr "".

(** [', '.join(l)] and the other [str.join]s. *)
Fixpoint join (sep : string) (l : list string) : string :=
  match l with
  | [] => ""
  | [x] => x
  | x :: r => x ++ sep ++ join sep r
  end.

(** [Harness.bom_list()], lines 311-326. *)
Definition bom_list (h : harness) : list (list cell) :=
  let b := bom h in
  let keys := (["item"; "qty"; "unit"; "designators"] ++
               (if existsb has_part_number b then ["part number"] else []))%list in
  map (fun k => CStr (capitalize k)) keys ::
  map (fun e => map (fun key =>
                       match entry_get e key with
                       | CList l => CStr (join ", " l)
                       | x => x
                       end) keys) b.

(** ** Tabular output (wv_helper.py, lines 128-141) *)

Definition tab : string := String (ascii_of_nat 9) EmptyString.
Definition nl : string := String (ascii_of_nat 10) EmptyString.

(** [str(item)] of a cell that is not a list, [', '.join(item)] of a list. *)
Definition cell_str (x : cell) : string :=
  match x with
  | CStr s => s
  | CInt z => str_Z z
  | CList l => join ", " l
  end.

Definition flatten2d (inp : list (list cell)) : list (list string) :=
  map (map cell_str) inp.

(** [tuplelist2tsv(inp, header)]: the output, and the caller's list [inp]
    afterwards ([inp.insert(0, header)] mutates it). *)
Definition tuplelist2tsv (inp : list (list cell)) (header : option (list cell))
  : string * list (list cell) :=
  let inp := match header with Some hd => hd :: inp | None => inp end in
  let rows := flatten2d inp in
  (fold_left (fun output row => output ++ join tab row ++ nl) rows "", inp).

(** ** Line-break helpers (wv_helper.py, lines 143-152) *)

Definition html_line_breaks (inp : scalar) : scalar :=
  match inp with YStr s => YStr (replace nl "<br />" s) | _ => inp end.

(** The replacement is the two characters backslash and n. *)
Definition graphviz_line_breaks (inp : scalar) : scalar :=
  match inp with YStr s => YStr (replace nl "\n" s) | _ => inp end.

Definition rstrip (s : string) : string := rev_string (lstrip (rev_string s)).

Definition remove_line_breaks (inp : scalar) : scalar :=
  match inp with YStr s => YStr (rstrip (replace nl " " s)) | _ => inp end.

(** ** Observations used to state properties of the resolver *)

(** The five role patterns of a 2-element record, in the order of lines
    563-569: (connector, cable), (cable, connector), (connector, connector),
    (ferrule, cable), (cable, ferrule). *)
Definition role_patterns (doc : document) (n0 n1 : string) : list bool :=
  map (check_designators doc [n0; n1])
      [[SConnectors; SCables]; [SCables; SConnectors]; [SConnectors; SConnectors];
       [SFerrules; SCables]; [SCables; SFerrules]].

(** The connections of the cable [n], and the active pins of connector [n]. *)
Definition conns_of (h : harness) (n : string) : list connection :=
  match dict_get n (h_cables h) with Some c => cb_connections c | None => [] end.

Definition visible_in (cs : list (string * connector)) (n : string) : list pin :=
  match dict_get n cs with Some c => c_visible_pins c | None => [] end.

Definition visible_of (h : harness) (n : string) : list pin :=
  visible_in (h_connectors h) n.

(** The connection a ferrule record emits for cable pin [cp] and the
    synthetic connector [fid], in the direction of the matched pattern. *)
Definition ferrule_connection (fer_cbl : bool) (fid : string) (cp : pin) : connection :=
  if fer_cbl
  then {| from_name := Some fid; from_port := Some (PInt 1); via_port := cp;
          to_name := None; to_port := None |}
  else {| from_name := None; from_port := None; via_port := cp;
          to_name := Some fid; to_port := Some (PInt 1) |}.

(** Every name declared in the document's connectors/cables sections is a
    connector/cable of the harness (as after [parse] has added them). *)
Definition names_ok (doc : document) (h : harness) : Prop :=
  (forall n, in_section doc n SConnectors = true -> dict_mem n (h_connectors h) = true) /\
  (forall n, in_section doc n SCables = true -> dict_mem n (h_cables h) = true).


(** ** Example documents *)

Definition plain_connector (pincount : option Z) : connector_params :=
  {| p_part_number := None; p_category := None; p_type := None;
     p_subtype := None; p_pincount := pincount; p_pinout := [];
     p_color := None; p_hide_disconnected_pins := false |}.

Definition plain_cable (colors : list string) : cable_params :=
  {| cp_part_number := None; cp_category := None; cp_type := None;
     cp_gauge := GNone; cp_gauge_unit := None; cp_length := 0;
     cp_wirecount := None; cp_shield := false; cp_colors := colors;
     cp_color_code := None |}.

Definition empty_harness : harness := {| h_connectors := []; h_cables := [] |}.

Definition declared_harness (doc : document) : harness :=
  match declare [] doc with Ok h => h | Err _ => empty_harness end.

(** Connector X1 with 2 pins, cable W1 with colors red and black, and the
    record [{X1: [1, 2]}, {W1: [1, 2]}, {X1: [1, 2]}]. *)
Definition loop_doc : document :=
  {| doc_connectors := [("X1", plain_connector (Some 2))];
     doc_cables := [("W1", plain_cable ["red"; "black"])];
     doc_ferrules := [];
     doc_connections :=
       [[EDict [("X1", YList [YInt 1; YInt 2])]; EDict [("W1", YList [YInt 1; YInt 2])];
         EDict [("X1", YList [YInt 1; YInt 2])]]] |}.

(** A ferrule template F and a 2-wire cable W, with the record
    [F, {W: [1, 2]}]. *)
Definition ferrule_doc : document :=
  {| doc_connectors := [];
     doc_cables := [("W", plain_cable ["BK"; "RD"])];
     doc_ferrules := [("F", plain_connector None)];
     doc_connections := [[EName "F"; EDict [("W", YList [YInt 1; YInt 2])]]] |}.

(** X is declared both as a connector and as a ferrule template; the
    record is [{X: 1}, {W: 1}]. *)
Definition shared_name_doc : document :=
  {| doc_connectors := [("X", plain_connector None)];
     doc_cables := [("W", plain_cable ["BK"])];
     doc_ferrules := [("X", plain_connector None)];
     doc_connections := [[EDict [("X", YScalar (YInt 1))]; EDict [("W", YScalar (YInt 1))]]] |}.

Definition typed_connector (ty : string) : connector_params :=
  {| p_part_number := None; p_category := None; p_type := Some ty;
     p_subtype := None; p_pincount := Some 2; p_pinout := [];
     p_color := None; p_hide_disconnected_pins := false |}.

Definition bundle_cable (colors : list string) : cable_params :=
  {| cp_part_number := None; cp_category := Some "bundle"; cp_type := None;
     cp_gauge := GNone; cp_gauge_unit := None; cp_length := 3;
     cp_wirecount := None; cp_shield := false; cp_colors := colors;
     cp_color_code := None |}.

(** Connectors X2 and X3 of type B and X1 of type A, a plain 2-wire cable
    W1 and the bundles B1 (RD) and B2 (BU, RD); no connection. *)
Definition bom_doc : document :=
  {| doc_connectors := [("X2", typed_connector "B"); ("X1", typed_connector "A");
                        ("X3", typed_connector "B")];
     doc_cables := [("W1", plain_cable ["BK"; "WH"]); ("B1", bundle_cable ["RD"]);
                    ("B2", bundle_cable ["BU"; "RD"])];
     doc_ferrules := [];
     doc_connections := [] |}.

(** ** Observations on sums, strings and connection lists *)

Definition zsum (l : list Z) : Z := fold_right Z.add 0 l.

(** Every character of [s] satisfies [P]. *)
Fixpoint str_all (P : ascii -> bool) (s : string) : bool :=
  match s with
  | EmptyString => true
  | String c r => P c && str_all P r
  end.


(** What a step of the resolver may do to the designators: the cable
    names stay, the connector names are only extended, by ferrule ids
    numbered after the counter's old value and up to its new one. *)
Definition names_grow (st st' : state) : Prop :=
  dict_keys (h_cables (st_harness st')) = dict_keys (h_cables (st_harness st)) /\
  st_ferrule_counter st <= st_ferrule_counter st' /\
  exists extra,
    dict_keys (h_connectors (st_harness st')) = (dict_keys (h_connectors (st_harness st)) ++ extra)%list /\
    forall n, In n extra ->
      exists i, n = ferrule_id i /\ st_ferrule_counter st < i <= st_ferrule_counter st'.

(* ================================================================== *)
(** * Properties *)

(** ** Pin expansion *)

Lemma split_on_absent (c : ascii) (s : string) :
  contains_char c s = false -> split_on c s = [s].
Proof.
  induction s as [|d r IH]; simpl; intros H; [reflexivity|].
  apply orb_false_iff in H as [H1 H2].
  rewrite H1, (IH H2). reflexivity.
Qed.

Lemma map_int_two (s : string) (a b : Z) :
  map_int (split_on "-" s) = Some [a; b] -> hyphen_halves s = Some (a, b).
Proof.
  unfold hyphen_halves.
  destruct (split_on "-" s) as [|x [|y [|z r]]]; simpl; intros H.
  - discriminate.
  - destruct (py_int x); discriminate.
  - destruct (py_int x) as [u|]; [|discriminate].
    destruct (py_int y) as [v|]; [|discriminate].
    simpl in H. inversion H. reflexivity.
  - destruct (py_int x) as [u|]; [|discriminate].
    destruct (py_int y) as [v|]; [|discriminate].
    destruct (py_int z) as [w|]; [|discriminate].
    destruct (map_int r); discriminate.
Qed.

Lemma hyphen_halves_map_int (s : string) (a b : Z) :
  hyphen_halves s = Some (a, b) -> map_int (split_on "-" s) = Some [a; b].
Proof.
  unfold hyphen_halves.
  destruct (split_on "-" s) as [|x [|y [|z r]]]; try discriminate.
  simpl. destruct (py_int x) as [u|], (py_int y) as [v|]; try discriminate.
  intros H. inversion H. reflexivity.
Qed.

Lemma py_range_up (a b : Z) :
  a <= b -> py_range a (b + 1) 1 = ascending a b.
Proof.
  intros Hab. unfold py_range, ascending.
  replace (0 <? 1) with true by reflexivity. cbv beta iota.
  replace ((b + 1 - a + 1 - 1) / 1) with (b - a + 1) by (rewrite Z.div_1_r; lia).
  replace (Z.to_nat (b - a + 1)) with (S (Z.to_nat (b - a))) by lia.
  apply map_ext. intros i. lia.
Qed.

Lemma py_range_down (a b : Z) :
  b <= a -> py_range a (b - 1) (-1) = descending a b.
Proof.
  intros Hab. unfold py_range, descending.
  replace (0 <? -1) with false by reflexivity.
  replace (-1 <? 0) with true by reflexivity. cbv beta iota.
  replace ((a - (b - 1) - -1 - 1) / - -1) with (a - b + 1)
    by (replace (- -1) with 1 by reflexivity; rewrite Z.div_1_r; lia).
  replace (Z.to_nat (a - b + 1)) with (S (Z.to_nat (a - b))) by lia.
  apply map_ext. intros i. lia.
Qed.

Lemma expand_elem_spec_ok (x : scalar) :
  (contains_char "-" (py_str x) = true -> hyphen_halves (py_str x) <> None) ->
  expand_elem x = Ok (expand_elem_spec x).
Proof.
  intros Hx. unfold expand_elem, expand_elem_spec.
  destruct (contains_char "-" (py_str x)) eqn:Hc.
  - destruct (hyphen_halves (py_str x)) as [[a b]|] eqn:Hh;
      [|exfalso; apply Hx; reflexivity].
    rewrite (hyphen_halves_map_int _ _ _ Hh).
    destruct (a <? b) eqn:Hlt.
    + rewrite py_range_up by lia. reflexivity.
    + destruct (b <? a) eqn:Hgt.
      * rewrite py_range_down by lia. reflexivity.
      * reflexivity.
  - unfold hyphen_halves. rewrite (split_on_absent _ _ Hc).
    destruct (py_int (py_str x)); reflexivity.
Qed.

Lemma expand_loop_spec (l : list scalar) :
  (forall x, In x l -> contains_char "-" (py_str x) = true -> hyphen_halves (py_str x) <> None) ->
  expand_loop l = Ok (flat_map expand_elem_spec l).
Proof.
  induction l as [|x r IH]; simpl; intros H; [reflexivity|].
  rewrite expand_elem_spec_ok by (apply H; left; reflexivity).
  simpl. rewrite IH by (intros y Hy; apply H; right; exact Hy).
  reflexivity.
Qed.

Lemma expand_elem_err (x : scalar) (e : exn) :
  expand_elem x = Err e -> e = ValueError.
Proof.
  unfold expand_elem, raise.
  destruct (contains_char "-" (py_str x)).
  - destruct (map_int (split_on "-" (py_str x))) as [[|a [|b [|c r]]]|];
      try (intros H; inversion H; reflexivity).
    destruct (a <? b), (b <? a); discriminate.
  - destruct (py_int (py_str x)); discriminate.
Qed.

Lemma expand_err (p : pinspec) (e : exn) : expand p = Err e -> e = ValueError.
Proof.
  assert (forall l, expand_loop l = Err e -> e = ValueError) as Hl.
  { induction l as [|x r IH]; simpl; [discriminate|].
    destruct (expand_elem x) eqn:Hx; simpl.
    - destruct (expand_loop r); simpl; [discriminate|]. intros H; apply IH; exact H.
    - intros H; inversion H; subst. eapply expand_elem_err; exact Hx. }
  destruct p; apply Hl.
Qed.

Lemma expand_elem_hyphen_bad (x : scalar) :
  contains_char "-" (py_str x) = true -> hyphen_halves (py_str x) = None ->
  expand_elem x = Err ValueError.
Proof.
  intros Hc Hh. unfold expand_elem. rewrite Hc.
  destruct (map_int (split_on "-" (py_str x))) as [[|a [|b [|c r]]]|] eqn:Hm;
    try reflexivity.
  rewrite (map_int_two _ _ _ Hm) in Hh. discriminate.
Qed.

Lemma expand_loop_hyphen_bad (l : list scalar) (x : scalar) :
  In x l -> contains_char "-" (py_str x) = true -> hyphen_halves (py_str x) = None ->
  expand_loop l = Err ValueError.
Proof.
  intros Hin Hc Hh. induction l as [|y r IH]; [destruct Hin|].
  simpl. destruct Hin as [->|Hin].
  - rewrite (expand_elem_hyphen_bad x Hc Hh). reflexivity.
  - destruct (expand_elem y) eqn:Hy; simpl.
    + rewrite (IH Hin). reflexivity.
    + rewrite (expand_elem_err _ _ Hy). reflexivity.
Qed.

(** C9: for a scalar or a list whose hyphenated elements all split into two
    integers, [expand] emits, element by element and in input order, the
    inclusive range (ascending, descending or a singleton) for a hyphenated
    element and the int or the literal string for any other element; in
    particular expand("3-1") = [3,2,1], expand("1-1") = [1] and
    expand(["A",2]) = ["A",2]. *)
Theorem expand_ranges_and_literals :
  (forall l : list scalar,
     (forall x, In x l -> contains_char "-" (py_str x) = true ->
                hyphen_halves (py_str x) <> None) ->
     expand (YList l) = Ok (flat_map expand_elem_spec l)) /\
  (forall x : scalar,
     (contains_char "-" (py_str x) = true -> hyphen_halves (py_str x) <> None) ->
     expand (YScalar x) = Ok (expand_elem_spec x)) /\
  expand (YScalar (YStr "3-1")) = Ok [PInt 3; PInt 2; PInt 1] /\
  expand (YScalar (YStr "1-1")) = Ok [PInt 1] /\
  expand (YList [YStr "A"; YInt 2]) = Ok [PStr "A"; PInt 2].
Proof.
  split; [|split; [|split; [|split]]].
  - intros l H. apply expand_loop_spec. exact H.
  - intros x H. simpl. rewrite (expand_elem_spec_ok x H). simpl.
    rewrite app_nil_r. reflexivity.
  - reflexivity.
  - reflexivity.
  - reflexivity.
Qed.

(** C10: an element whose stringification contains "-" but does not split
    into exactly two integer halves makes [expand] raise (ValueError), as a
    list element or as a scalar, while an element without "-" is always
    emitted, as an int or as the literal string. *)
Theorem expand_hyphen_raises :
  (forall (l : list scalar) (x : scalar),
     In x l -> contains_char "-" (py_str x) = true ->
     hyphen_halves (py_str x) = None ->
     expand (YList l) = Err ValueError) /\
  (forall x : scalar,
     contains_char "-" (py_str x) = true -> hyphen_halves (py_str x) = None ->
     expand (YScalar x) = Err ValueError) /\
  (forall x : scalar,
     contains_char "-" (py_str x) = false ->
     expand (YScalar x) =
       Ok [match py_int (py_str x) with Some z => PInt z | None => PStr (py_str x) end]).
Proof.
  split; [|split].
  - intros l x Hin Hc Hh. exact (expand_loop_hyphen_bad l x Hin Hc Hh).
  - intros x Hc Hh. simpl. rewrite (expand_elem_hyphen_bad x Hc Hh). reflexivity.
  - intros x Hc. simpl. unfold expand_elem. rewrite Hc.
    destruct (py_int (py_str x)); reflexivity.
Qed.

(** ** Gauge conversions *)

Lemma substring_find_char (c : ascii) (s : string) :
  contains_char c s = true -> substring (find_char c s) 1 s = String c EmptyString.
Proof.
  induction s as [|d r IH]; simpl; [discriminate|].
  unfold char_eqb. destruct (Ascii.eqb c d) eqn:E.
  - intros _. apply Ascii.eqb_eq in E. subst. simpl. destruct r; reflexivity.
  - simpl. intros H. apply IH. exact H.
Qed.

(** C1 (code bug): every spelling that reaches the "N/0" branch, that is a
    name containing "/" or one of the uncommon spellings "0000", "000",
    "00", "0", makes [mm2_equiv] raise ValueError: it parses the character
    at the position of "/" (the slash itself) as an int. *)
Theorem mm2_equiv_slash_raises :
  forall (area : Z -> result Q) (dist : Q -> Q -> Q) (qstr : Q -> string)
    (awg strict : string),
    In awg ["0000"; "000"; "00"; "0"] \/
    (dict_get awg uncommon_awg = None /\ contains_char "/" awg = true) ->
    mm2_equiv area dist qstr awg strict = Err ValueError.
Proof.
  intros area dist qstr awg strict [Hin | [Hnone Hc]].
  - simpl in Hin.
    destruct Hin as [<-|[<-|[<-|[<-|[]]]]]; reflexivity.
  - unfold mm2_equiv. rewrite Hnone, Hc.
    rewrite (substring_find_char _ _ Hc). reflexivity.
Qed.

(** C2 (code bug): an input without any digit makes [awg_equiv] raise
    IndexError ([re.findall(...)[0]] on an empty list is not caught by
    [except ValueError]) instead of returning "Unknown (<input>)". *)
Theorem awg_equiv_no_digit_raises :
  forall (awg_of : Z -> string -> result string) (mm2 strict : string),
    (lower strict = "yes" \/ lower strict = "no") ->
    first_digit_run mm2 = None ->
    awg_equiv awg_of mm2 strict = Err IndexError.
Proof.
  intros awg_of mm2 strict Hs Hd. unfold awg_equiv. rewrite Hd.
  destruct Hs as [Hs|Hs]; rewrite Hs; reflexivity.
Qed.

Lemma expand_ranges_and_literals_witness :
  (forall x, In x [YStr "3-1"; YStr "A"; YInt 7] ->
             contains_char "-" (py_str x) = true -> hyphen_halves (py_str x) <> None) /\
  expand (YList [YStr "3-1"; YStr "A"; YInt 7]) =
    Ok (flat_map expand_elem_spec [YStr "3-1"; YStr "A"; YInt 7]).
Proof.
  assert (H : forall x, In x [YStr "3-1"; YStr "A"; YInt 7] ->
             contains_char "-" (py_str x) = true -> hyphen_halves (py_str x) <> None).
  { intros x Hin. simpl in Hin.
    destruct Hin as [<-|[<-|[<-|[]]]]; vm_compute; congruence. }
  split; [exact H|].
  apply (proj1 expand_ranges_and_literals). exact H.
Defined.

Lemma expand_hyphen_raises_witness :
  In (YStr "V-BUS") [YStr "A"; YStr "V-BUS"] /\
  contains_char "-" (py_str (YStr "V-BUS")) = true /\
  hyphen_halves (py_str (YStr "V-BUS")) = None /\
  expand (YList [YStr "A"; YStr "V-BUS"]) = Err ValueError.
Proof.
  split; [simpl; right; left; reflexivity|].
  split; [reflexivity|]. split; [reflexivity|].
  apply (proj1 expand_hyphen_raises [YStr "A"; YStr "V-BUS"] (YStr "V-BUS")).
  - simpl. right; left; reflexivity.
  - reflexivity.
  - reflexivity.
Defined.

Lemma mm2_equiv_slash_raises_witness :
  mm2_equiv (fun n => Ok (inject_Z n)) (fun x k => Qabs (x - k)) (fun _ => "") "4/0" "yes"
    = Err ValueError /\
  mm2_equiv (fun n => Ok (inject_Z n)) (fun x k => Qabs (x - k)) (fun _ => "") "0000" "no"
    = Err ValueError.
Proof.
  split.
  - apply mm2_equiv_slash_raises. right. split; reflexivity.
  - apply mm2_equiv_slash_raises. left. simpl. left. reflexivity.
Defined.

Lemma awg_equiv_no_digit_raises_witness :
  awg_equiv (fun n _ => Ok (str_Z n)) "abc" "yes" = Err IndexError.
Proof.
  apply awg_equiv_no_digit_raises; [left; reflexivity | reflexivity].
Defined.

(** ** Connector construction *)

Lemma length_concat_repeat {A} (l : list A) (k : nat) :
  List.length (List.concat (repeat l k)) = (k * List.length l)%nat.
Proof.
  induction k as [|k IH]; simpl; [reflexivity|].
  rewrite length_app, IH. reflexivity.
Qed.

Lemma py_repeat_length {A} (l : list A) (n : Z) :
  List.length (py_repeat l n) = (Z.to_nat n * List.length l)%nat.
Proof. apply length_concat_repeat. Qed.

Lemma nth_error_concat_repeat {A} (l : list A) (k i : nat) :
  (i < k * List.length l)%nat ->
  nth_error (List.concat (repeat l k)) i = nth_error l (i mod List.length l).
Proof.
  revert i. induction k as [|k IH]; intros i Hi; [simpl in Hi; lia|].
  simpl. destruct (Nat.lt_ge_cases i (List.length l)) as [Hlt|Hge].
  - rewrite nth_error_app1 by exact Hlt. rewrite Nat.mod_small by exact Hlt.
    reflexivity.
  - rewrite nth_error_app2 by exact Hge.
    simpl in Hi. rewrite IH by lia.
    replace i with ((i - List.length l) + 1 * List.length l)%nat at 2 by lia.
    rewrite Nat.Div0.mod_add. reflexivity.
Qed.

(** C8 (amended): a non-empty pinout together with a pincount always fails;
    neither (an empty pinout, no pincount or pincount 0) gives pincount 1 and
    one blank pin label; and a constructed connector whose pincount is not
    negative has pincount = len(pinout). *)
Theorem connector_pinout_pincount :
  (forall (name : string) (p : connector_params),
     p_pinout p <> [] -> p_pincount p <> None ->
     Connector name p = Err (Exception "You cannot specify both pinout and pincount")) /\
  (forall (name : string) (p : connector_params),
     p_pinout p = [] -> (p_pincount p = None \/ p_pincount p = Some 0) ->
     exists c, Connector name p = Ok c /\ c_pincount c = 1 /\ c_pinout c = [YStr ""]) /\
  (forall (name : string) (p : connector_params) (c : connector),
     Connector name p = Ok c -> 0 <= c_pincount c ->
     c_pincount c = Z.of_nat (List.length (c_pinout c))).
Proof.
  split; [|split].
  - intros name p Hpo Hpc. unfold Connector, connector_pins.
    destruct (p_pinout p) as [|x r]; [congruence|].
    destruct (p_pincount p); [reflexivity|congruence].
  - intros name p Hpo Hpc. unfold Connector, connector_pins. rewrite Hpo.
    eexists; split; [|split].
    + reflexivity.
    + simpl. destruct Hpc as [-> | ->]; reflexivity.
    + simpl. destruct Hpc as [-> | ->]; reflexivity.
  - intros name p c H Hn. unfold Connector in H.
    destruct (connector_pins (p_pinout p) (p_pincount p)) as [[k po]|] eqn:E;
      simpl in H; [|discriminate].
    inversion H; subst c; clear H. simpl in *.
    unfold connector_pins in E.
    destruct (p_pinout p) as [|x r].
    + inversion E; subst. rewrite py_repeat_length. simpl. lia.
    + destruct (p_pincount p); inversion E; subst. reflexivity.
Qed.

Lemma connector_pinout_pincount_witness :
  Connector "X1" {| p_part_number := None; p_category := None; p_type := None;
                    p_subtype := None; p_pincount := Some 2; p_pinout := [YStr "A"];
                    p_color := None; p_hide_disconnected_pins := false |}
  = Err (Exception "You cannot specify both pinout and pincount") /\
  (exists c, Connector "X2" {| p_part_number := None; p_category := None; p_type := None;
                    p_subtype := None; p_pincount := None; p_pinout := [];
                    p_color := None; p_hide_disconnected_pins := false |} = Ok c /\
             c_pincount c = 1 /\ c_pinout c = [YStr ""]) /\
  (exists c, Connector "X3" {| p_part_number := None; p_category := None; p_type := None;
                    p_subtype := None; p_pincount := Some 3; p_pinout := [];
                    p_color := None; p_hide_disconnected_pins := false |} = Ok c /\
             c_pincount c = Z.of_nat (List.length (c_pinout c))).
Proof.
  split; [|split].
  - apply (proj1 connector_pinout_pincount); simpl; congruence.
  - apply (proj1 (proj2 connector_pinout_pincount)); simpl; [reflexivity | left; reflexivity].
  - set (P3 := {| p_part_number := None; p_category := None; p_type := None;
                   p_subtype := None; p_pincount := Some 3; p_pinout := [];
                   p_color := None; p_hide_disconnected_pins := false |}).
    eexists; split; [reflexivity|].
    apply (proj2 (proj2 connector_pinout_pincount) "X3" P3); [reflexivity | simpl; lia].
Defined.

(** C8 counterexample: a negative pincount is accepted and leaves an empty
    pinout, so pincount differs from len(pinout). *)
Lemma connector_negative_pincount :
  exists c, Connector "X1" {| p_part_number := None; p_category := None; p_type := None;
                              p_subtype := None; p_pincount := Some (-1); p_pinout := [];
                              p_color := None; p_hide_disconnected_pins := false |} = Ok c /\
            c_pincount c = -1 /\ c_pinout c = [] /\
            c_pincount c <> Z.of_nat (List.length (c_pinout c)).
Proof.
  eexists; split; [reflexivity|]. simpl. split; [reflexivity|]. split; [reflexivity|].
  discriminate.
Qed.

(** ** Cable construction *)

Lemma repeat_covers (cols : list string) (n : Z) :
  0 < Z.of_nat (List.length cols) ->
  (Z.to_nat n <= List.length (py_repeat cols (n / Z.of_nat (List.length cols) + 1)))%nat.
Proof.
  intros Hl. rewrite py_repeat_length.
  set (m := Z.of_nat (List.length cols)) in *.
  pose proof (Z.mul_succ_div_gt n m Hl) as Hg.
  assert (0 <= n / m \/ n < 0) as [Hq|Hq].
  { destruct (Z_lt_le_dec n 0); [right; lia | left; apply Z.div_pos; lia]. }
  - unfold Z.succ in Hg. nia.
  - lia.
Qed.

Lemma cable_colors_stage2 (cols cols' : list string) (n : Z) :
  0 < n ->
  (if Z.of_nat (List.length cols) <? n then
     if Z.eqb (Z.of_nat (List.length cols)) 0 then raise ZeroDivisionError
     else Ok (py_repeat cols (n / Z.of_nat (List.length cols) + 1))
   else Ok cols) = Ok cols' ->
  (Z.to_nat n <= List.length cols')%nat.
Proof.
  intros Hn H.
  destruct (Z.of_nat (List.length cols) <? n) eqn:Hlt.
  - destruct (Z.eqb (Z.of_nat (List.length cols)) 0) eqn:H0; [discriminate|].
    inversion H; subst. apply repeat_covers. apply Z.eqb_neq in H0. lia.
  - inversion H; subst. apply Z.ltb_ge in Hlt. lia.
Qed.

Lemma cable_colors_length (codes : list (string * list string)) (wc : option Z)
  (colors : list string) (cc : option string) (n : Z) (cols : list string) :
  cable_colors codes wc colors cc = Ok (n, cols) -> 0 <= n ->
  n = Z.of_nat (List.length cols).
Proof.
  intros H Hn. unfold cable_colors in H.
  assert (Himp : forall n' cols',
    match colors with
    | [] => raise (Exception "Unknown number of wires. Must specify wirecount or colors (implicit length)")
    | _ :: _ => Ok (Z.of_nat (List.length colors), colors)
    end = Ok (n', cols') -> n' = Z.of_nat (List.length cols')).
  { intros n' cols' E. destruct colors; inversion E; reflexivity. }
  destruct wc as [k|]; [|exact (Himp _ _ H)].
  destruct (Z.eqb k 0) eqn:Hk; [exact (Himp _ _ H)|].
  apply Z.eqb_neq in Hk.
  destruct (match colors with
            | _ :: _ => Ok colors
            | [] => if truthy_str cc then
                      match cc with
                      | Some s => match dict_get s codes with
                                  | Some pal => Ok pal
                                  | None => raise (Exception "Unknown color code")
                                  end
                      | None => Ok colors
                      end
                    else Ok (py_repeat [""] k)
            end) as [c1|] eqn:E1; simpl in H; [|discriminate].
  destruct (if Z.of_nat (List.length c1) <? k then
              if Z.eqb (Z.of_nat (List.length c1)) 0 then raise ZeroDivisionError
              else Ok (py_repeat c1 (k / Z.of_nat (List.length c1) + 1))
            else Ok c1) as [c2|] eqn:E2; simpl in H; [|discriminate].
  inversion H; subst n cols; clear H.
  pose proof (cable_colors_stage2 c1 c2 k ltac:(lia) E2) as Hc.
  unfold py_slice_to. destruct (0 <=? k) eqn:Hk0; [|lia].
  rewrite length_firstn. lia.
Qed.

Lemma cable_colors_palette (codes : list (string * list string)) (n : Z)
  (colors : list string) (cc : option string) (pal : list string) :
  (colors = pal /\ pal <> [] \/
   colors = [] /\ exists s, cc = Some s /\ s <> "" /\ dict_get s codes = Some pal) ->
  0 < Z.of_nat (List.length pal) < n ->
  cable_colors codes (Some n) colors cc =
    Ok (n, firstn (Z.to_nat n) (py_repeat pal (n / Z.of_nat (List.length pal) + 1))).
Proof.
  intros Hp Hlen. unfold cable_colors.
  replace (Z.eqb n 0) with false by (symmetry; apply Z.eqb_neq; lia).
  assert (Hsel : match colors with
            | _ :: _ => Ok colors
            | [] => if truthy_str cc then
                      match cc with
                      | Some s => match dict_get s codes with
                                  | Some pal => Ok pal
                                  | None => raise (Exception "Unknown color code")
                                  end
                      | None => Ok colors
                      end
                    else Ok (py_repeat [""] n)
            end = Ok pal).
  { destruct Hp as [[-> Hne]|[-> [s [-> [Hs Hd]]]]].
    - destruct pal; [congruence|reflexivity].
    - unfold truthy_str. apply String.eqb_neq in Hs. rewrite Hs. simpl.
      rewrite Hd. reflexivity. }
  rewrite Hsel. simpl.
  replace (Z.of_nat (List.length pal) <? n) with true by (symmetry; apply Z.ltb_lt; lia).
  replace (Z.eqb (Z.of_nat (List.length pal)) 0) with false by (symmetry; apply Z.eqb_neq; lia).
  simpl. unfold py_slice_to.
  replace (0 <=? n) with true by (symmetry; apply Z.leb_le; lia).
  reflexivity.
Qed.

(** C7 (amended): with an explicit wirecount [n] and a non-empty palette of
    [m < n] colors (explicit colors, or the named palette of [color_code]
    when no colors are given), the constructed cable has exactly [n] colors,
    the palette repeated cyclically and cut to [n]; every constructed cable
    whose wirecount is not negative has wirecount = len(colors); and a cable
    with neither wirecount nor colors is rejected. *)
Theorem cable_colors_resolved :
  (forall (codes : list (string * list string)) (name : string) (p : cable_params)
          (c : cable) (n : Z) (pal : list string),
     Cable codes name p = Ok c -> cp_wirecount p = Some n ->
     (cp_colors p = pal /\ pal <> [] \/
      cp_colors p = [] /\ exists s, cp_color_code p = Some s /\ s <> "" /\
                                    dict_get s codes = Some pal) ->
     0 < Z.of_nat (List.length pal) < n ->
     cb_wirecount c = n /\
     Z.of_nat (List.length (cb_colors c)) = n /\
     (forall i : nat, (i < Z.to_nat n)%nat ->
        nth_error (cb_colors c) i = nth_error pal (i mod List.length pal))) /\
  (forall (codes : list (string * list string)) (name : string) (p : cable_params)
          (c : cable),
     Cable codes name p = Ok c -> 0 <= cb_wirecount c ->
     cb_wirecount c = Z.of_nat (List.length (cb_colors c))) /\
  (forall (codes : list (string * list string)) (name : string) (p : cable_params),
     cp_wirecount p = None -> cp_colors p = [] ->
     exists e, Cable codes name p = Err e).
Proof.
  split; [|split].
  - intros codes name p c n pal Hc Hw Hp Hlen.
    unfold Cable in Hc.
    destruct (cable_gauge (cp_gauge p) (cp_gauge_unit p)) as [gu|]; simpl in Hc;
      [|discriminate].
    rewrite Hw, (cable_colors_palette codes n _ _ pal Hp Hlen) in Hc. simpl in Hc.
    inversion Hc; subst c; clear Hc. simpl.
    pose proof (repeat_covers pal n ltac:(lia)) as Hcov.
    split; [reflexivity|]. split.
    + rewrite length_firstn. lia.
    + intros i Hi. rewrite nth_error_firstn.
      replace (Nat.ltb i (Z.to_nat n)) with true by (symmetry; apply Nat.ltb_lt; exact Hi).
      unfold py_repeat. apply nth_error_concat_repeat.
      rewrite py_repeat_length in Hcov. lia.
  - intros codes name p c Hc Hn. unfold Cable in Hc.
    destruct (cable_gauge (cp_gauge p) (cp_gauge_unit p)) as [gu|]; simpl in Hc;
      [|discriminate].
    destruct (cable_colors codes (cp_wirecount p) (cp_colors p) (cp_color_code p))
      as [[k cols]|] eqn:E; simpl in Hc; [|discriminate].
    inversion Hc; subst c; clear Hc. simpl in *.
    exact (cable_colors_length _ _ _ _ _ _ E Hn).
  - intros codes name p Hw Hcol. unfold Cable.
    destruct (cable_gauge (cp_gauge p) (cp_gauge_unit p)) as [gu|e]; simpl.
    + unfold cable_colors. rewrite Hw, Hcol. eexists; reflexivity.
    + exists e; reflexivity.
Qed.

Lemma cable_colors_resolved_witness :
  (exists c, Cable [] "W1"
     {| cp_part_number := None; cp_category := None; cp_type := None;
        cp_gauge := GNone; cp_gauge_unit := None; cp_length := 1;
        cp_wirecount := Some 5; cp_shield := false; cp_colors := ["RD"; "BK"];
        cp_color_code := None |} = Ok c /\
     cb_wirecount c = 5 /\ Z.of_nat (List.length (cb_colors c)) = 5 /\
     (forall i : nat, (i < Z.to_nat 5)%nat ->
        nth_error (cb_colors c) i = nth_error ["RD"; "BK"] (i mod 2))) /\
  (exists c, Cable [("DIN", ["WH"; "BN"; "GN"])] "W2"
     {| cp_part_number := None; cp_category := None; cp_type := None;
        cp_gauge := GNone; cp_gauge_unit := None; cp_length := 1;
        cp_wirecount := Some 4; cp_shield := false; cp_colors := [];
        cp_color_code := Some "DIN" |} = Ok c /\
     cb_wirecount c = Z.of_nat (List.length (cb_colors c))) /\
  (exists e, Cable [] "W3"
     {| cp_part_number := None; cp_category := None; cp_type := None;
        cp_gauge := GNone; cp_gauge_unit := None; cp_length := 1;
        cp_wirecount := None; cp_shield := false; cp_colors := [];
        cp_color_code := None |} = Err e).
Proof.
  split; [|split].
  - set (P := {| cp_part_number := None; cp_category := None; cp_type := None;
                 cp_gauge := GNone; cp_gauge_unit := None; cp_length := 1;
                 cp_wirecount := Some 5; cp_shield := false; cp_colors := ["RD"; "BK"];
                 cp_color_code := None |}).
    eexists; split; [reflexivity|].
    apply (proj1 cable_colors_resolved [] "W1" P _ 5 ["RD"; "BK"]).
    + reflexivity.
    + reflexivity.
    + left. split; [reflexivity|discriminate].
    + simpl. lia.
  - set (P := {| cp_part_number := None; cp_category := None; cp_type := None;
                 cp_gauge := GNone; cp_gauge_unit := None; cp_length := 1;
                 cp_wirecount := Some 4; cp_shield := false; cp_colors := [];
                 cp_color_code := Some "DIN" |}).
    eexists; split; [reflexivity|].
    apply (proj1 (proj2 cable_colors_resolved) [("DIN", ["WH"; "BN"; "GN"])] "W2" P).
    + reflexivity.
    + simpl. lia.
  - apply (proj2 (proj2 cable_colors_resolved)); reflexivity.
Defined.

(** C7 counterexample: a negative wirecount is accepted; the colors are cut
    by Python's negative slice, so wirecount differs from len(colors). *)
Lemma cable_negative_wirecount :
  exists c, Cable [] "W1"
     {| cp_part_number := None; cp_category := None; cp_type := None;
        cp_gauge := GNone; cp_gauge_unit := None; cp_length := 1;
        cp_wirecount := Some (-1); cp_shield := false; cp_colors := ["RD"; "BK"];
        cp_color_code := None |} = Ok c /\
     cb_wirecount c = -1 /\ cb_colors c = ["RD"] /\
     cb_wirecount c <> Z.of_nat (List.length (cb_colors c)).
Proof.
  eexists; split; [reflexivity|]. simpl.
  split; [reflexivity|]. split; [reflexivity|]. discriminate.
Qed.

(** ** BOM: bundle wires *)

(** C4 (code bug): two bundles of the same gauge, unit and length, B1 with
    one red conductor and B2 with one blue conductor: every synthetic wire
    record carries both bundle names, so the red line item lists B2 and the
    blue line item lists B1, although neither owns such a conductor. *)
Theorem bundle_wire_designators_not_owners :
  match add_cables [] {| h_connectors := []; h_cables := [] |}
          [("B1", {| cp_part_number := None; cp_category := Some "bundle"; cp_type := None;
                     cp_gauge := GNum 1; cp_gauge_unit := None; cp_length := 2;
                     cp_wirecount := None; cp_shield := false; cp_colors := ["RD"];
                     cp_color_code := None |});
           ("B2", {| cp_part_number := None; cp_category := Some "bundle"; cp_type := None;
                     cp_gauge := GNum 1; cp_gauge_unit := None; cp_length := 2;
                     cp_wirecount := None; cp_shield := false; cp_colors := ["BU"];
                     cp_color_code := None |})] with
  | Ok h =>
      map (fun w => (w_color w, w_designators w)) (bundle_wirelist (h_cables h)) =
        [("RD", ["B1"; "B2"]); ("BU", ["B1"; "B2"])] /\
      map (fun it => (bi_qty it, bi_designators it)) (bundle_items (h_cables h)) =
        [(2, ["B1"; "B2"]); (2, ["B1"; "B2"])]
  | Err _ => False
  end.
Proof. vm_compute. split; reflexivity. Qed.

(** ** Dictionaries *)

Section DictLemmas.
Context {V : Type}.

Lemma dict_get_set_eq (k : string) (v : V) (d : list (string * V)) :
  dict_get k (dict_set k v d) = Some v.
Proof.
  induction d as [|[k' v'] r IH]; simpl.
  - rewrite String.eqb_refl. reflexivity.
  - destruct (String.eqb k k') eqn:E; simpl.
    + rewrite E. reflexivity.
    + rewrite E. exact IH.
Qed.

Lemma dict_get_set_neq (k k2 : string) (v : V) (d : list (string * V)) :
  k2 <> k -> dict_get k2 (dict_set k v d) = dict_get k2 d.
Proof.
  intros Hne. induction d as [|[k' v'] r IH]; simpl.
  - apply String.eqb_neq in Hne. rewrite Hne. reflexivity.
  - destruct (String.eqb k k') eqn:E; simpl.
    + apply String.eqb_eq in E. subst k'.
      apply String.eqb_neq in Hne. rewrite Hne. reflexivity.
    + rewrite IH. reflexivity.
Qed.

Lemma dict_mem_set (k k2 : string) (v : V) (d : list (string * V)) :
  dict_mem k2 d = true -> dict_mem k2 (dict_set k v d) = true.
Proof.
  unfold dict_mem. destruct (String.eqb_spec k2 k) as [->|Hne].
  - rewrite dict_get_set_eq. reflexivity.
  - rewrite dict_get_set_neq by exact Hne. exact (fun H => H).
Qed.

End DictLemmas.


(** ** Harness steps *)

Lemma pin_eqb_eq (p q : pin) : pin_eqb p q = true <-> p = q.
Proof.
  destruct p, q; simpl; split; intros H; try discriminate; try congruence.
  - apply Z.eqb_eq in H. congruence.
  - inversion H. apply Z.eqb_refl.
  - apply String.eqb_eq in H. congruence.
  - inversion H. apply String.eqb_refl.
Qed.

Lemma set_visible_in (p q : pin) (vs : list pin) :
  In p (set_visible q vs) <-> p = q \/ In p vs.
Proof.
  unfold set_visible. destruct (existsb (pin_eqb q) vs) eqn:E.
  - apply existsb_exists in E as [x [Hx Hq]]. apply pin_eqb_eq in Hq. subst x.
    split; [right; exact H|]. intros [->|H]; [exact Hx|exact H].
  - rewrite in_app_iff. simpl. split.
    + intros [H|[H|[]]]; [right; exact H|left; symmetry; exact H].
    + intros [H|H]; [right; left; symmetry; exact H|left; exact H].
Qed.

Lemma activate_end_mono (e : option (string * pin)) (cs : list (string * connector))
  (n : string) (p : pin) :
  In p (visible_in cs n) -> In p (visible_in (activate_end e cs) n).
Proof.
  destruct e as [[m q]|]; simpl; [|exact (fun H => H)].
  destruct (dict_get m cs) as [c|] eqn:E; [|exact (fun H => H)].
  unfold visible_in. destruct (String.eqb_spec n m) as [->|Hne].
  - rewrite dict_get_set_eq, E. simpl. intros H. apply set_visible_in. right; exact H.
  - rewrite dict_get_set_neq by exact Hne. exact (fun H => H).
Qed.

Lemma activate_end_hit (cs : list (string * connector)) (m : string) (q : pin) :
  dict_mem m cs = true -> In q (visible_in (activate_end (Some (m, q)) cs) m).
Proof.
  unfold dict_mem. simpl. destruct (dict_get m cs) as [c|] eqn:E; [|discriminate].
  intros _. unfold visible_in. rewrite dict_get_set_eq. simpl.
  apply set_visible_in. left; reflexivity.
Qed.

Lemma activate_end_mem (e : option (string * pin)) (cs : list (string * connector))
  (n : string) :
  dict_mem n cs = true -> dict_mem n (activate_end e cs) = true.
Proof.
  destruct e as [[m q]|]; simpl; [|exact (fun H => H)].
  destruct (dict_get m cs); [apply dict_mem_set|exact (fun H => H)].
Qed.

Lemma activate_end_other (cs : list (string * connector)) (m n : string) (q : pin) :
  n <> m -> dict_get n (activate_end (Some (m, q)) cs) = dict_get n cs.
Proof.
  intros Hne. simpl. destruct (dict_get m cs); [|reflexivity].
  apply dict_get_set_neq. exact Hne.
Qed.

Lemma harness_connect_spec (h : harness) (fr : option (string * pin)) (vn : string)
  (vp : pin) (to : option (string * pin)) :
  dict_mem vn (h_cables h) = true ->
  exists h', harness_connect h fr vn vp to = Ok h' /\
    h_connectors h' = activate_end to (activate_end fr (h_connectors h)) /\
    conns_of h' vn = (conns_of h vn ++
      [{| from_name := end_name fr; from_port := end_pin fr; via_port := vp;
          to_name := end_name to; to_port := end_pin to |}])%list /\
    (forall n, n <> vn -> conns_of h' n = conns_of h n) /\
    (forall n, dict_mem n (h_cables h) = true -> dict_mem n (h_cables h') = true).
Proof.
  unfold dict_mem at 1. destruct (dict_get vn (h_cables h)) as [cb|] eqn:E;
    [|discriminate].
  intros _. unfold harness_connect. rewrite E. simpl.
  eexists; split; [reflexivity|]. split; [reflexivity|]. split; [|split].
  - unfold conns_of. simpl. rewrite dict_get_set_eq, E. reflexivity.
  - intros n Hne. unfold conns_of. simpl. rewrite dict_get_set_neq by exact Hne.
    reflexivity.
  - intros n Hn. apply dict_mem_set. exact Hn.
Qed.

Lemma connect3_spec (ts : list (pin * pin * pin)) :
  forall (h : harness) (fn vn tn : string),
  dict_mem vn (h_cables h) = true -> dict_mem fn (h_connectors h) = true ->
  dict_mem tn (h_connectors h) = true ->
  exists h', connect3 h fn vn tn ts = Ok h' /\
    conns_of h' vn = (conns_of h vn ++
      map (fun '(fp, vp, tp) =>
             {| from_name := Some fn; from_port := Some fp; via_port := vp;
                to_name := Some tn; to_port := Some tp |}) ts)%list /\
    (forall n p, In p (visible_of h n) -> In p (visible_of h' n)) /\
    (forall fp vp tp, In (fp, vp, tp) ts ->
       In fp (visible_of h' fn) /\ In tp (visible_of h' tn)).
Proof.
  induction ts as [|[[fp vp] tp] r IH]; intros h fn vn tn Hv Hf Ht.
  - exists h. simpl. rewrite app_nil_r.
    split; [reflexivity|split; [reflexivity|split; [auto|intros ? ? ? []]]].
  - destruct (harness_connect_spec h (Some (fn, fp)) vn vp (Some (tn, tp)) Hv)
      as [h1 [E1 [Hc1 [Hv1 [_ Hm1]]]]].
    assert (Hf1 : dict_mem fn (h_connectors h1) = true).
    { rewrite Hc1. apply activate_end_mem, activate_end_mem. exact Hf. }
    assert (Ht1 : dict_mem tn (h_connectors h1) = true).
    { rewrite Hc1. apply activate_end_mem, activate_end_mem. exact Ht. }
    destruct (IH h1 fn vn tn (Hm1 _ Hv) Hf1 Ht1) as [h' [E' [Hv' [Hmono Hin]]]].
    exists h'. simpl. rewrite E1. simpl. split; [exact E'|]. split; [|split].
    + rewrite Hv', Hv1. simpl. rewrite <- app_assoc. reflexivity.
    + intros n p Hp. apply Hmono. unfold visible_of. rewrite Hc1.
      apply activate_end_mono, activate_end_mono. exact Hp.
    + intros fp' vp' tp' [Heq|Hr].
      * inversion Heq; subst fp' vp' tp'. split; apply Hmono; unfold visible_of; rewrite Hc1.
        -- apply activate_end_mono, activate_end_hit. exact Hf.
        -- apply activate_end_hit, activate_end_mem. exact Ht.
      * exact (Hin _ _ _ Hr).
Qed.

Lemma nth_error_combine {A B} (l : list A) (l' : list B) (i : nat) :
  nth_error (combine l l') i =
    match nth_error l i, nth_error l' i with
    | Some a, Some b => Some (a, b)
    | _, _ => None
    end.
Proof.
  revert l' i. induction l as [|a r IH]; intros l' i.
  - destruct i; reflexivity.
  - destruct l' as [|b r']; destruct i; simpl; try reflexivity.
    + destruct (nth_error r i); reflexivity.
    + apply IH.
Qed.

Lemma check3_true (doc : document) (f v t : string) :
  check_designators doc [f; v; t] [SConnectors; SCables; SConnectors] = true ->
  in_section doc f SConnectors = true /\ in_section doc v SCables = true /\
  in_section doc t SConnectors = true.
Proof.
  simpl. destruct (in_section doc f SConnectors), (in_section doc v SCables),
    (in_section doc t SConnectors); try discriminate. auto.
Qed.

(** ** Three-element connection records *)

(** C5: a 3-element record {from: pf}, {via: pv}, {to: pt} fails unless its
    names are a connector, a cable and a connector in that order; with the
    expansions of the pins, unequal lengths fail with "List length mismatch"
    (in particular lengths 2 and 3); equal lengths emit on the cable one
    Connection per index i pairing from-pin[i], via-pin[i], to-pin[i], and
    every from- and to-pin is active on its connector. *)
Theorem three_element_record :
  forall (doc : document) (h : harness) (f v t : string) (pf pv pt : pinspec),
  names_ok doc h ->
  (check_designators doc [f; v; t] [SConnectors; SCables; SConnectors] = false ->
   process3 doc h (EDict [(f, pf)]) (EDict [(v, pv)]) (EDict [(t, pt)]) =
     Err (Exception "Bad connection definition (3)")) /\
  (forall fps vps tps : list pin,
   check_designators doc [f; v; t] [SConnectors; SCables; SConnectors] = true ->
   expand pf = Ok fps -> expand pv = Ok vps -> expand pt = Ok tps ->
   ((List.length fps <> List.length vps \/ List.length vps <> List.length tps) ->
    process3 doc h (EDict [(f, pf)]) (EDict [(v, pv)]) (EDict [(t, pt)]) =
      Err (Exception "List length mismatch")) /\
   (List.length fps = 2%nat -> List.length vps = 3%nat ->
    process3 doc h (EDict [(f, pf)]) (EDict [(v, pv)]) (EDict [(t, pt)]) =
      Err (Exception "List length mismatch")) /\
   (List.length fps = List.length vps -> List.length vps = List.length tps ->
    exists h' added,
      process3 doc h (EDict [(f, pf)]) (EDict [(v, pv)]) (EDict [(t, pt)]) = Ok h' /\
      conns_of h' v = (conns_of h v ++ added)%list /\
      List.length added = List.length fps /\
      (forall i fp vp tp, nth_error fps i = Some fp -> nth_error vps i = Some vp ->
         nth_error tps i = Some tp ->
         nth_error added i = Some {| from_name := Some f; from_port := Some fp;
                                     via_port := vp; to_name := Some t;
                                     to_port := Some tp |}) /\
      (forall p, In p fps -> In p (visible_of h' f)) /\
      (forall p, In p tps -> In p (visible_of h' t)))).
Proof.
  intros doc h f v t pf pv pt [Hcon Hcab]. split.
  - intros Hc. unfold process3. simpl single_key. cbn [bind]. rewrite Hc. reflexivity.
  - intros fps vps tps Hc Ef Ev Et.
    assert (Hbody : process3 doc h (EDict [(f, pf)]) (EDict [(v, pv)]) (EDict [(t, pt)]) =
      if negb (Nat.eqb (List.length fps) (List.length vps))
         || negb (Nat.eqb (List.length vps) (List.length tps))
      then raise (Exception "List length mismatch")
      else connect3 h f v t (combine (combine fps vps) tps)).
    { unfold process3. simpl single_key. cbn [bind]. rewrite Hc. simpl negb.
      cbv iota. rewrite Ef, Ev, Et. reflexivity. }
    rewrite Hbody. split; [|split].
    + intros [H|H].
      * apply Nat.eqb_neq in H. rewrite H. reflexivity.
      * apply Nat.eqb_neq in H. rewrite H, orb_true_r. reflexivity.
    + intros H2 H3. rewrite H2, H3. reflexivity.
    + intros H1 H2. rewrite H1, H2, !Nat.eqb_refl. simpl.
      destruct (check3_true doc f v t Hc) as [Hf [Hv Ht]].
      destruct (connect3_spec (combine (combine fps vps) tps) h f v t
                  (Hcab _ Hv) (Hcon _ Hf) (Hcon _ Ht)) as [h' [E [Hconn [_ Hvis]]]].
      eexists h', _. split; [exact E|]. split; [exact Hconn|]. split; [|split; [|split]].
      * rewrite length_map, !length_combine. lia.
      * intros i fp vp tp Hfi Hvi Hti. rewrite nth_error_map, !nth_error_combine.
        rewrite Hfi, Hvi, Hti. reflexivity.
      * intros p Hp. apply In_nth_error in Hp as [i Hi].
        assert (Hvi : nth_error vps i <> None).
        { apply nth_error_Some. rewrite <- H1. apply nth_error_Some. congruence. }
        assert (Hti : nth_error tps i <> None).
        { apply nth_error_Some. rewrite <- H2. apply nth_error_Some. exact Hvi. }
        destruct (nth_error vps i) as [vp|] eqn:Evi; [|congruence].
        destruct (nth_error tps i) as [tp|] eqn:Eti; [|congruence].
        apply (Hvis p vp tp). apply nth_error_In with i.
        rewrite !nth_error_combine, Hi, Evi, Eti. reflexivity.
      * intros p Hp. apply In_nth_error in Hp as [i Hi].
        assert (Hvi : nth_error vps i <> None).
        { apply nth_error_Some. rewrite H2. apply nth_error_Some. congruence. }
        assert (Hfi : nth_error fps i <> None).
        { apply nth_error_Some. rewrite H1. apply nth_error_Some. exact Hvi. }
        destruct (nth_error vps i) as [vp|] eqn:Evi; [|congruence].
        destruct (nth_error fps i) as [fp|] eqn:Efi; [|congruence].
        apply (Hvis fp vp p). apply nth_error_In with i.
        rewrite !nth_error_combine, Hi, Evi, Efi. reflexivity.
Qed.

Lemma names_ok_forallb (doc : document) (h : harness) :
  forallb (fun n => dict_mem n (h_connectors h)) (section_keys doc SConnectors) = true ->
  forallb (fun n => dict_mem n (h_cables h)) (section_keys doc SCables) = true ->
  names_ok doc h.
Proof.
  intros Hc Hb. split; intros n Hn; unfold in_section in Hn;
    apply existsb_exists in Hn as [x [Hx Heq]]; apply String.eqb_eq in Heq; subst x.
  - rewrite forallb_forall in Hc. exact (Hc n Hx).
  - rewrite forallb_forall in Hb. exact (Hb n Hx).
Qed.

Lemma three_element_record_witness :
  names_ok loop_doc (declared_harness loop_doc) /\
  exists h' added,
    process3 loop_doc (declared_harness loop_doc)
      (EDict [("X1", YList [YInt 1; YInt 2])]) (EDict [("W1", YList [YInt 1; YInt 2])])
      (EDict [("X1", YList [YInt 1; YInt 2])]) = Ok h' /\
    conns_of h' "W1" = (conns_of (declared_harness loop_doc) "W1" ++ added)%list /\
    List.length added = 2%nat /\
    (forall i fp vp tp, nth_error [PInt 1; PInt 2] i = Some fp ->
       nth_error [PInt 1; PInt 2] i = Some vp -> nth_error [PInt 1; PInt 2] i = Some tp ->
       nth_error added i = Some {| from_name := Some "X1"; from_port := Some fp;
                                   via_port := vp; to_name := Some "X1";
                                   to_port := Some tp |}) /\
    (forall p, In p [PInt 1; PInt 2] -> In p (visible_of h' "X1")) /\
    (forall p, In p [PInt 1; PInt 2] -> In p (visible_of h' "X1")).
Proof.
  assert (Hn : names_ok loop_doc (declared_harness loop_doc)).
  { apply names_ok_forallb; vm_compute; reflexivity. }
  split; [exact Hn|].
  destruct (three_element_record loop_doc (declared_harness loop_doc) "X1" "W1" "X1"
              (YList [YInt 1; YInt 2]) (YList [YInt 1; YInt 2]) (YList [YInt 1; YInt 2]) Hn)
    as [_ H].
  apply (H [PInt 1; PInt 2] [PInt 1; PInt 2] [PInt 1; PInt 2]); reflexivity.
Defined.

(** ** Ferrule records *)









(** ** The role patterns of 2-element records *)

Lemma harness_connect_err (h : harness) (fr : option (string * pin)) (vn : string)
  (vp : pin) (to : option (string * pin)) (e : exn) :
  harness_connect h fr vn vp to = Err e -> e = KeyError.
Proof.
  unfold harness_connect. destruct (dict_get vn (h_cables h)); simpl.
  - discriminate.
  - intros H. inversion H. reflexivity.
Qed.

Lemma connect_pairs_err (ps : list (pin * pin)) :
  forall (h : harness) (con_cbl : bool) (fn tn : string) (e : exn),
  connect_pairs h con_cbl fn tn ps = Err e -> e = KeyError.
Proof.
  induction ps as [|[fp tp] r IH]; intros h con_cbl fn tn e; simpl; [discriminate|].
  destruct con_cbl.
  - destruct (harness_connect h (Some (fn, fp)) tn tp None) eqn:E; simpl.
    + apply IH.
    + intros H. inversion H. subst. exact (harness_connect_err _ _ _ _ _ _ E).
  - destruct (harness_connect h None fn fp (Some (tn, tp))) eqn:E; simpl.
    + apply IH.
    + intros H. inversion H. subst. exact (harness_connect_err _ _ _ _ _ _ E).
Qed.

Lemma loop_pairs_err (ps : list (pin * pin)) :
  forall (h : harness) (name : string) (e : exn),
  loop_pairs h name ps = Err e -> e = KeyError.
Proof.
  induction ps as [|[fp tp] r IH]; intros h name e; simpl; [discriminate|].
  unfold harness_loop. destruct (dict_get name (h_connectors h)); simpl.
  - apply IH.
  - intros H. inversion H. reflexivity.
Qed.

Lemma add_ferrule_err (h : harness) (fid : string) (p : connector_params) (e : exn) :
  add_ferrule h fid p = Err e ->
  e = TypeError \/ e = Exception "You cannot specify both pinout and pincount".
Proof.
  unfold add_ferrule, add_connector, Connector, connector_pins.
  destruct (p_category p); simpl.
  - intros H. inversion H. left; reflexivity.
  - destruct (p_pinout p), (p_pincount p); simpl; try discriminate.
    intros H. inversion H. right; reflexivity.
Qed.

Lemma ferrule_loop_err (cps : list pin) :
  forall (st : state) (fer : bool) (params : connector_params) (w : string) (e : exn),
  ferrule_loop st fer params w cps = Err e ->
  e = TypeError \/ e = KeyError \/ e = Exception "You cannot specify both pinout and pincount".
Proof.
  induction cps as [|cp r IH]; intros st fer params w e; simpl; [discriminate|].
  destruct (add_ferrule (st_harness st) (ferrule_id (st_ferrule_counter st + 1)) params)
    as [h1|e1] eqn:E1; simpl.
  - destruct fer;
      [destruct (harness_connect h1 (Some (ferrule_id (st_ferrule_counter st + 1), PInt 1))
                   w cp None) as [h2|e2] eqn:E2
      |destruct (harness_connect h1 None w cp
                   (Some (ferrule_id (st_ferrule_counter st + 1), PInt 1))) as [h2|e2] eqn:E2];
      simpl; try apply IH;
      intros H; inversion H; subst; apply harness_connect_err in E2; subst; auto.
  - intros H. inversion H. subst. apply add_ferrule_err in E1. destruct E1; auto.
Qed.

Ltac no_wrong_designators :=
  repeat match goal with
  | H : Err _ = Err _ |- _ => inversion H; subst; clear H
  | H : bind ?m _ = Err _ |- _ =>
      let E := fresh "E" in destruct m eqn:E; cbn [bind] in H
  | H : (if ?b then _ else _) = Err _ |- _ => destruct b; cbn [bind negb] in H
  | H : match ?m with Some _ => _ | None => _ end = Err _ |- _ =>
      let E := fresh "E" in destruct m eqn:E
  end;
  repeat match goal with
  | E : expand _ = Err _ |- _ => apply expand_err in E
  | E : connect_pairs _ _ _ _ _ = Err _ |- _ => apply connect_pairs_err in E
  | E : loop_pairs _ _ _ = Err _ |- _ => apply loop_pairs_err in E
  | E : ferrule_loop _ _ _ _ _ = Err _ |- _ => apply ferrule_loop_err in E
  end;
  try discriminate;
  repeat match goal with
  | E : _ \/ _ |- _ => destruct E as [E|E]
  end; try discriminate.

(** C3: for a 2-element record whose elements pass the key checks, all five
    role patterns are evaluated, and the record is rejected with "Wrong
    designators" exactly when none of them matches; a record matching
    several patterns is not rejected for that reason. *)
Theorem two_element_wrong_designators :
  forall (doc : document) (st : state) (c0 c1 : element) (n0 n1 : string)
    (p0 p1 : pinspec),
  check_keys2 c0 = Ok tt -> check_keys2 c1 = Ok tt ->
  normalize2 c0 = Ok (n0, p0) -> normalize2 c1 = Ok (n1, p1) ->
  (process2 doc st c0 c1 = Err (Exception "Wrong designators") <->
   role_patterns doc n0 n1 = [false; false; false; false; false]).
Proof.
  intros doc st c0 c1 n0 n1 p0 p1 Hk0 Hk1 Hn0 Hn1.
  unfold process2. rewrite Hk0, Hk1. cbn [bind]. rewrite Hn0, Hn1. cbn [bind].
  cbv [role_patterns map].
  destruct (check_designators doc [n0; n1] [SConnectors; SCables]),
    (check_designators doc [n0; n1] [SCables; SConnectors]),
    (check_designators doc [n0; n1] [SConnectors; SConnectors]),
    (check_designators doc [n0; n1] [SFerrules; SCables]),
    (check_designators doc [n0; n1] [SCables; SFerrules]);
    cbn [orb negb]; split; intros H;
    solve [ reflexivity | discriminate | exfalso; no_wrong_designators ].
Qed.

Lemma two_element_wrong_designators_witness :
  (process2 loop_doc {| st_harness := declared_harness loop_doc; st_ferrule_counter := 0 |}
     (EDict [("X1", YScalar (YInt 1))]) (EDict [("X2", YScalar (YInt 1))]) =
     Err (Exception "Wrong designators") <->
   role_patterns loop_doc "X1" "X2" = [false; false; false; false; false]) /\
  (process2 loop_doc {| st_harness := declared_harness loop_doc; st_ferrule_counter := 0 |}
     (EDict [("X1", YScalar (YInt 1))]) (EDict [("W1", YScalar (YInt 1))]) =
     Err (Exception "Wrong designators") <->
   role_patterns loop_doc "X1" "W1" = [false; false; false; false; false]).
Proof.
  split.
  - apply (two_element_wrong_designators loop_doc
             {| st_harness := declared_harness loop_doc; st_ferrule_counter := 0 |}
             (EDict [("X1", YScalar (YInt 1))]) (EDict [("X2", YScalar (YInt 1))])
             "X1" "X2" (YScalar (YInt 1)) (YScalar (YInt 1))); reflexivity.
  - apply (two_element_wrong_designators loop_doc
             {| st_harness := declared_harness loop_doc; st_ferrule_counter := 0 |}
             (EDict [("X1", YScalar (YInt 1))]) (EDict [("W1", YScalar (YInt 1))])
             "X1" "W1" (YScalar (YInt 1)) (YScalar (YInt 1))); reflexivity.
Defined.

(** C3 (a name declared both as a connector and as a ferrule template):
    the record [{X: 1}, {W: 1}] matches two patterns, is not rejected, and
    is processed under both of them, adding a connection from X and one
    from the synthesized ferrule _F1. *)
Lemma two_patterns_both_processed :
  role_patterns shared_name_doc "X" "W" = [true; false; false; true; false] /\
  match parse [] shared_name_doc with
  | Ok st =>
      conns_of (st_harness st) "W" =
        [{| from_name := Some "X"; from_port := Some (PInt 1); via_port := PInt 1;
            to_name := None; to_port := None |};
         ferrule_connection true (ferrule_id 1) (PInt 1)]
  | Err _ => False
  end.
Proof. vm_compute. split; reflexivity. Qed.

(** ** Grouping with [Counter] *)

Lemma fold_left_add (l : list Z) (a : Z) : fold_left Z.add l a = a + zsum l.
Proof.
  revert a. induction l as [|x r IH]; intros a; simpl; [lia|]. rewrite IH. lia.
Qed.

Lemma zsum_cons (x : Z) (l : list Z) : zsum (x :: l) = x + zsum l.
Proof. reflexivity. Qed.

Lemma zsum_app (l1 l2 : list Z) : zsum (l1 ++ l2)%list = zsum l1 + zsum l2.
Proof. induction l1 as [|x r IH]; simpl; [reflexivity|]. rewrite IH. lia. Qed.

Lemma zsum_perm (l1 l2 : list Z) : Permutation l1 l2 -> zsum l1 = zsum l2.
Proof. induction 1; simpl; lia. Qed.

Lemma zsum_map_filter_perm {A} (w : A -> Z) (P : A -> bool) (l1 l2 : list A) :
  Permutation l1 l2 -> zsum (map w (filter P l1)) = zsum (map w (filter P l2)).
Proof.
  induction 1 as [| x l1 l2 _ IH | x y l | l1 l2 l3 _ IH1 _ IH2]; simpl.
  - reflexivity.
  - destruct (P x); simpl; rewrite IH; reflexivity.
  - destruct (P x), (P y); simpl; lia.
  - rewrite IH1, IH2. reflexivity.
Qed.

Lemma zsum_map_ext_in {A} (f g : A -> Z) (l : list A) :
  (forall x, In x l -> f x = g x) -> zsum (map f l) = zsum (map g l).
Proof. intros H. f_equal. apply map_ext_in. exact H. Qed.

Lemma zsum_map_flat_map {A B} (w : B -> Z) (F : A -> list B) (l : list A) :
  zsum (map w (flat_map F l)) = zsum (map (fun a => zsum (map w (F a))) l).
Proof.
  induction l as [|a r IH]; simpl; [reflexivity|].
  rewrite map_app, zsum_app, IH. reflexivity.
Qed.

Lemma zsum_map_filter_cons {A} (w : A -> Z) (P : A -> bool) (x : A) (l : list A) :
  zsum (map w (filter P (x :: l))) = (if P x then w x else 0) + zsum (map w (filter P l)).
Proof. simpl. destruct (P x); simpl; lia. Qed.

Lemma filter_true_in {A} (P : A -> bool) (l : list A) :
  (forall x, In x l -> P x = true) -> filter P l = l.
Proof.
  induction l as [|x r IH]; intros H; simpl; [reflexivity|].
  rewrite (H x (or_introl eq_refl)), IH; [reflexivity|].
  intros y Hy. apply H. right; exact Hy.
Qed.

Section Grouping.
Context {K : Type} (eqb : K -> K -> bool).
Hypothesis eqb_spec : forall a b, eqb a b = true <-> a = b.

Lemma counter_keys_acc (l acc : list K) :
  NoDup acc ->
  NoDup (fold_left (fun acc k => if existsb (eqb k) acc then acc else (acc ++ [k])%list) l acc) /\
  (forall k, In k (fold_left (fun acc k => if existsb (eqb k) acc then acc else (acc ++ [k])%list) l acc)
             <-> In k acc \/ In k l).
Proof.
  revert acc. induction l as [|x r IH]; intros acc Hnd; simpl.
  - split; [exact Hnd|]. intros k. tauto.
  - destruct (existsb (eqb x) acc) eqn:E.
    + destruct (IH acc Hnd) as [H1 H2]. split; [exact H1|]. intros k. rewrite H2.
      apply existsb_exists in E as [y [Hy Hxy]]. apply eqb_spec in Hxy. subst y.
      split; [tauto|]. intros [H|[<-|H]]; tauto.
    + assert (Hnd' : NoDup (acc ++ [x])%list).
      { apply NoDup_app; [exact Hnd|constructor; [intros []|constructor]|].
        intros y Hy [->|[]]. assert (existsb (eqb y) acc = true) as C.
        { apply existsb_exists. exists y. split; [exact Hy|apply eqb_spec; reflexivity]. }
        congruence. }
      destruct (IH _ Hnd') as [H1 H2]. split; [exact H1|]. intros k. rewrite H2, in_app_iff.
      simpl. tauto.
Qed.

Lemma counter_keys_nodup (l : list K) : NoDup (counter_keys eqb l).
Proof. apply counter_keys_acc. constructor. Qed.

Lemma counter_keys_in (l : list K) (k : K) : In k (counter_keys eqb l) <-> In k l.
Proof.
  unfold counter_keys. rewrite (proj2 (counter_keys_acc l [] (NoDup_nil _))). simpl. tauto.
Qed.

Lemma zsum_indicator_none (a : K) (c : Z) (ks : list K) :
  existsb (eqb a) ks = false -> zsum (map (fun k => if eqb a k then c else 0) ks) = 0.
Proof.
  induction ks as [|k r IH]; simpl; [reflexivity|].
  intros H. apply orb_false_iff in H as [H1 H2]. rewrite H1, IH by exact H2. reflexivity.
Qed.

Lemma zsum_indicator (a : K) (c : Z) (ks : list K) :
  NoDup ks ->
  zsum (map (fun k => if eqb a k then c else 0) ks) = if existsb (eqb a) ks then c else 0.
Proof.
  induction ks as [|k r IH]; intros Hnd; simpl; [reflexivity|].
  inversion Hnd as [|? ? Hk Hr]; subst.
  destruct (eqb a k) eqn:E; simpl.
  - apply eqb_spec in E. subst k.
    assert (Hn : existsb (eqb a) r = false).
    { apply not_true_iff_false. intros Hx. apply existsb_exists in Hx as [y [Hy Hay]].
      apply eqb_spec in Hay. subst y. contradiction. }
    rewrite zsum_indicator_none by exact Hn. lia.
  - rewrite IH by exact Hr. lia.
Qed.

Variable A : Type.
Variable f : A -> K.

Lemma group_sum (w : A -> Z) (ks : list K) (l : list A) :
  NoDup ks ->
  zsum (map (fun k => zsum (map w (filter (fun x => eqb (f x) k) l))) ks) =
  zsum (map w (filter (fun x => existsb (eqb (f x)) ks) l)).
Proof.
  intros Hnd. induction l as [|x r IH].
  - simpl. induction ks; simpl; [reflexivity|]. inversion Hnd; subst.
    rewrite IHks by assumption. reflexivity.
  - rewrite zsum_map_filter_cons, <- IH.
    transitivity (zsum (map (fun k => if eqb (f x) k then w x else 0) ks) +
                  zsum (map (fun k => zsum (map w (filter (fun y => eqb (f y) k) r))) ks)).
    + clear IH Hnd. induction ks as [|k ks' IHk]; [reflexivity|].
      cbn [map]. rewrite !zsum_cons, IHk, zsum_map_filter_cons.
      destruct (eqb (f x) k); lia.
    + rewrite zsum_indicator by exact Hnd. reflexivity.
Qed.

Lemma group_sum_all (w : A -> Z) (l : list A) :
  zsum (map (fun k => zsum (map w (filter (fun x => eqb (f x) k) l)))
            (counter_keys eqb (map f l))) = zsum (map w l).
Proof.
  rewrite group_sum by apply counter_keys_nodup. f_equal. f_equal.
  apply filter_true_in. intros x Hx. apply existsb_exists. exists (f x). split.
  - apply counter_keys_in. apply in_map. exact Hx.
  - apply eqb_spec. reflexivity.
Qed.

End Grouping.

(** ** BOM quantities *)

Lemma opt_str_eqb_spec (a b : option string) : opt_str_eqb a b = true <-> a = b.
Proof.
  destruct a, b; simpl; split; intros H; try discriminate; try reflexivity.
  - apply String.eqb_eq in H. congruence.
  - inversion H. apply String.eqb_refl.
Qed.

Lemma gauge_eqb_spec (a b : gauge) : gauge_eqb a b = true <-> a = b.
Proof.
  destruct a, b; simpl; split; intros H; try discriminate; try reflexivity.
  - apply Z.eqb_eq in H. congruence.
  - inversion H. apply Z.eqb_refl.
  - apply String.eqb_eq in H. congruence.
  - inversion H. apply String.eqb_refl.
Qed.

Lemma connector_type_eqb_spec (a b : option string * option string * Z) :
  connector_type_eqb a b = true <-> a = b.
Proof.
  destruct a as [[t1 s1] p1], b as [[t2 s2] p2]. simpl.
  rewrite !andb_true_iff, !opt_str_eqb_spec, Z.eqb_eq.
  split; [intros [[-> ->] ->]; reflexivity|intros H; inversion H; auto].
Qed.

Lemma cable_type_eqb_spec (a b : option string * gauge * option string * Z * bool) :
  cable_type_eqb a b = true <-> a = b.
Proof.
  destruct a as [[[[c1 g1] u1] w1] s1], b as [[[[c2 g2] u2] w2] s2]. simpl.
  rewrite !andb_true_iff, !opt_str_eqb_spec, gauge_eqb_spec, Z.eqb_eq, eqb_true_iff.
  split; [intros [[[[-> ->] ->] ->] ->]; reflexivity|intros H; inversion H; auto 10].
Qed.

Lemma bundle_type_eqb_spec (a b : option string * gauge * option string * Z) :
  bundle_type_eqb a b = true <-> a = b.
Proof.
  destruct a as [[[c1 g1] u1] l1], b as [[[c2 g2] u2] l2]. simpl.
  rewrite !andb_true_iff, !opt_str_eqb_spec, gauge_eqb_spec, Z.eqb_eq.
  split; [intros [[[-> ->] ->] ->]; reflexivity|intros H; inversion H; auto 10].
Qed.

Lemma wire_type_eqb_spec (a b : gauge * option string * string) :
  wire_type_eqb a b = true <-> a = b.
Proof.
  destruct a as [[g1 u1] c1], b as [[g2 u2] c2]. simpl.
  rewrite !andb_true_iff, opt_str_eqb_spec, gauge_eqb_spec, String.eqb_eq.
  split; [intros [[-> ->] ->]; reflexivity|intros H; inversion H; auto].
Qed.

Lemma insert_entry_perm (e : bom_entry) (l : list bom_entry) :
  Permutation (insert_entry e l) (e :: l).
Proof.
  induction l as [|x r IH]; simpl; [reflexivity|].
  destruct (String.compare (be_item e) (be_item x)); try reflexivity;
    (etransitivity; [apply perm_skip; exact IH|apply perm_swap]).
Qed.

Lemma sort_entries_fold_perm (l acc : list bom_entry) :
  Permutation (fold_left (fun acc e => insert_entry e acc) l acc) (acc ++ l)%list.
Proof.
  revert acc. induction l as [|x r IH]; intros acc; simpl.
  - rewrite app_nil_r. reflexivity.
  - rewrite IH. rewrite insert_entry_perm. simpl. apply Permutation_middle.
Qed.

Lemma sort_entries_perm (l : list bom_entry) : Permutation (sort_entries l) l.
Proof. apply sort_entries_fold_perm. Qed.

Lemma fold_perm {T} (g : list bom_entry -> T -> list bom_entry) :
  (forall acc t, Permutation (g acc t) (acc ++ g [] t)%list) ->
  forall ts acc, Permutation (fold_left g ts acc) (acc ++ flat_map (g []) ts)%list.
Proof.
  intros Hg ts. induction ts as [|t r IH]; intros acc; simpl.
  - rewrite app_nil_r. reflexivity.
  - rewrite IH, Hg, app_assoc. reflexivity.
Qed.

Lemma insert_sorted_length (s : string) (l : list string) :
  List.length (insert_sorted s l) = S (List.length l).
Proof.
  induction l as [|x r IH]; simpl; [reflexivity|].
  destruct (String.compare s x); simpl; try rewrite IH; reflexivity.
Qed.

Lemma sort_strings_length (l : list string) : List.length (sort_strings l) = List.length l.
Proof.
  induction l as [|x r IH]; simpl; [reflexivity|]. rewrite insert_sorted_length, IH. reflexivity.
Qed.

Lemma zsum_const {A} (c : Z) (l : list A) :
  zsum (map (fun _ => c) l) = c * Z.of_nat (List.length l).
Proof. induction l as [|x r IH]; simpl map; rewrite ?zsum_cons, ?IH; simpl; lia. Qed.

Lemma in_filter_key {A K} (eqb : K -> K -> bool) (f : A -> K)
  (Hspec : forall a b, eqb a b = true <-> a = b) (l : list A) (k : K) (x : A) :
  In x (filter (fun y => eqb (f y) k) l) -> f x = k.
Proof. intros H. apply filter_In in H as [_ H]. apply Hspec. exact H. Qed.

Lemma bom_connectors_perm (cs : list (string * connector)) :
  Permutation (bom_connectors cs)
    (flat_map (fun ty =>
       match filter (fun kv => connector_type_eqb (connector_type (snd kv)) ty) cs with
       | (_, shared) :: _ =>
           let designators := sort_strings (dict_keys (filter (fun kv => connector_type_eqb (connector_type (snd kv)) ty) cs)) in
           let is_ferrule := opt_str_eqb (c_category shared) (Some "ferrule") in
           [{| be_item := "Connector" ++
                 (if truthy_str (c_type shared) then ", " ++ opt_str (c_type shared) else "") ++
                 (if truthy_str (c_subtype shared) then ", " ++ opt_str (c_subtype shared) else "") ++
                 (if negb is_ferrule then ", " ++ str_Z (c_pincount shared) ++ " pins" else "") ++
                 (if truthy_str (c_color shared) then ", " ++ opt_str (c_color shared) else "");
               be_qty := Z.of_nat (List.length designators); be_unit := "";
               be_designators := if negb is_ferrule then CList designators else CStr "";
               be_part_number := c_part_number shared |}]
       | [] => []
       end) (counter_keys connector_type_eqb (map (fun kv => connector_type (snd kv)) cs))).
Proof.
  unfold bom_connectors. rewrite fold_perm; [reflexivity|].
  intros acc t. destruct (filter _ cs) as [|[k sh] r]; simpl.
  - rewrite app_nil_r. reflexivity.
  - apply sort_entries_perm.
Qed.

Lemma bom_connectors_sum (cs : list (string * connector)) :
  zsum (map be_qty (bom_connectors cs)) = Z.of_nat (List.length cs) /\
  (forall e, In e (bom_connectors cs) -> be_unit e = "").
Proof.
  pose proof (bom_connectors_perm cs) as P. split.
  - rewrite (zsum_perm _ _ (Permutation_map be_qty P)).
    rewrite zsum_map_flat_map.
    transitivity (zsum (map (fun _ => 1) cs)); [|rewrite zsum_const; lia].
    rewrite <- (group_sum_all connector_type_eqb connector_type_eqb_spec
                  _ (fun kv => connector_type (snd kv)) (fun _ => 1) cs).
    apply zsum_map_ext_in. intros ty _.
    rewrite zsum_const.
    destruct (filter _ cs) as [|[k sh] r]; simpl map.
    + reflexivity.
    + rewrite zsum_cons, insert_sorted_length, sort_strings_length.
      unfold dict_keys. rewrite length_map. simpl. lia.
  - intros e He. apply (Permutation_in _ P) in He.
    apply in_flat_map in He as [ty [_ He]].
    destruct (filter _ cs) as [|[k sh] r]; [destruct He|].
    destruct He as [<-|[]]. reflexivity.
Qed.

Lemma bom_cable_items_sum (cbs : list (string * cable)) :
  zsum (map be_qty (bom_cable_items cbs)) =
    zsum (map (fun kv => if opt_str_eqb (cb_category (snd kv)) (Some "bundle") then 0
                         else cb_length (snd kv)) cbs) /\
  (forall e, In e (bom_cable_items cbs) -> be_unit e = "m").
Proof.
  unfold bom_cable_items. split.
  - rewrite zsum_map_flat_map.
    rewrite <- (group_sum_all cable_type_eqb cable_type_eqb_spec _ (fun kv => cable_type (snd kv))).
    apply zsum_map_ext_in. intros ty _.
    assert (Hk : forall x, In x (filter (fun kv => cable_type_eqb (cable_type (snd kv)) ty) cbs) ->
                 cable_type (snd x) = ty)
      by exact (in_filter_key cable_type_eqb (fun kv => cable_type (snd kv)) cable_type_eqb_spec cbs ty).
    destruct (filter _ cbs) as [|[k sh] r]; [reflexivity|].
    assert (Hc : forall x, In x ((k, sh) :: r) -> cb_category (snd x) = cb_category sh).
    { intros x Hx. pose proof (Hk x Hx) as H1. pose proof (Hk (k, sh) (or_introl eq_refl)) as H2.
      rewrite <- H2 in H1. unfold cable_type in H1. simpl in H1. inversion H1. reflexivity. }
    destruct (opt_str_eqb (cb_category sh) (Some "bundle")) eqn:Eb; simpl negb; cbv iota.
    + rewrite (zsum_map_ext_in (fun kv : string * cable =>
                 if opt_str_eqb (cb_category (snd kv)) (Some "bundle") then 0
                 else cb_length (snd kv)) (fun _ => 0)).
      * rewrite zsum_const. simpl. lia.
      * intros x Hx. rewrite Hc, Eb by exact Hx. reflexivity.
    + rewrite (zsum_map_ext_in (fun kv : string * cable =>
                 if opt_str_eqb (cb_category (snd kv)) (Some "bundle") then 0
                 else cb_length (snd kv)) (fun kv => cb_length (snd kv))).
      * cbn [map]. rewrite fold_left_add. cbn [zsum fold_right be_qty snd]. lia.
      * intros x Hx. rewrite Hc, Eb by exact Hx. reflexivity.
  - intros e He. apply in_flat_map in He as [ty [_ He]].
    destruct (filter _ cbs) as [|[k sh] r]; [destruct He|].
    destruct (negb _); [|destruct He]. destruct He as [<-|[]]. reflexivity.
Qed.

Lemma bundle_wirelist_sum (cbs : list (string * cable)) :
  zsum (map w_length (bundle_wirelist cbs)) =
    zsum (map (fun kv => if opt_str_eqb (cb_category (snd kv)) (Some "bundle")
                         then cb_length (snd kv) * Z.of_nat (List.length (cb_colors (snd kv)))
                         else 0) cbs).
Proof.
  unfold bundle_wirelist. rewrite zsum_map_flat_map.
  rewrite <- (group_sum_all bundle_type_eqb bundle_type_eqb_spec _ (fun kv => bundle_type (snd kv))).
  apply zsum_map_ext_in. intros ty _.
  assert (Hk : forall x, In x (filter (fun kv => bundle_type_eqb (bundle_type (snd kv)) ty) cbs) ->
               bundle_type (snd x) = ty)
    by exact (in_filter_key bundle_type_eqb (fun kv => bundle_type (snd kv)) bundle_type_eqb_spec cbs ty).
  destruct (filter _ cbs) as [|[k sh] r]; [reflexivity|].
  assert (Hc : forall x, In x ((k, sh) :: r) ->
            cb_category (snd x) = cb_category sh /\ cb_length (snd x) = cb_length sh).
  { intros x Hx. pose proof (Hk x Hx) as H1. pose proof (Hk (k, sh) (or_introl eq_refl)) as H2.
    rewrite <- H2 in H1. unfold bundle_type in H1. simpl in H1. inversion H1. auto. }
  destruct (opt_str_eqb (cb_category sh) (Some "bundle")) eqn:Eb.
  - rewrite zsum_map_flat_map. apply zsum_map_ext_in. intros x Hx.
    destruct (Hc x Hx) as [H1 H2]. rewrite H1, Eb, H2, map_map. simpl.
    rewrite zsum_const. lia.
  - rewrite (zsum_map_ext_in (fun kv : string * cable =>
               if opt_str_eqb (cb_category (snd kv)) (Some "bundle")
               then cb_length (snd kv) * Z.of_nat (List.length (cb_colors (snd kv)))
               else 0) (fun _ => 0)).
    + rewrite zsum_const. simpl. lia.
    + intros x Hx. destruct (Hc x Hx) as [H1 _]. rewrite H1, Eb. reflexivity.
Qed.

Lemma bundle_items_sum (cbs : list (string * cable)) :
  zsum (map bi_qty (bundle_items cbs)) = zsum (map w_length (bundle_wirelist cbs)) /\
  (forall it, In it (bundle_items cbs) -> bi_unit it = "m").
Proof.
  unfold bundle_items. split.
  - rewrite zsum_map_flat_map.
    rewrite <- (group_sum_all wire_type_eqb wire_type_eqb_spec _ wire_type).
    apply zsum_map_ext_in. intros ty _.
    destruct (filter _ (bundle_wirelist cbs)) as [|sh r]; [reflexivity|].
    simpl map. rewrite zsum_cons, fold_left_add. simpl. lia.
  - intros it He. apply in_flat_map in He as [ty [_ He]].
    destruct (filter _ (bundle_wirelist cbs)) as [|sh r]; [destruct He|].
    destruct He as [<-|[]]. reflexivity.
Qed.

Lemma zsum_filter_all {A} (w : A -> Z) (P : A -> bool) (l : list A) :
  (forall x, In x l -> P x = true) -> zsum (map w (filter P l)) = zsum (map w l).
Proof. intros H. rewrite filter_true_in by exact H. reflexivity. Qed.

Lemma zsum_filter_none {A} (w : A -> Z) (P : A -> bool) (l : list A) :
  (forall x, In x l -> P x = false) -> zsum (map w (filter P l)) = 0.
Proof.
  induction l as [|x r IH]; intros H; simpl; [reflexivity|].
  rewrite (H x (or_introl eq_refl)). apply IH. intros y Hy. apply H. right; exact Hy.
Qed.

Lemma bom_split (h : harness) :
  Permutation (bom h)
    (bom_connectors (h_connectors h) ++ bom_cable_items (h_cables h) ++
     map entry_of_item (bundle_items (h_cables h)))%list.
Proof.
  unfold bom. apply Permutation_app_head.
  rewrite fold_perm.
  - apply Permutation_app_head. induction (bundle_items (h_cables h)); simpl;
      [reflexivity|apply perm_skip; assumption].
  - intros acc t. simpl. apply sort_entries_perm.
Qed.

Lemma bom_units (h : harness) :
  (forall e, In e (bom_connectors (h_connectors h)) -> be_unit e = "") /\
  (forall e, In e (bom_cable_items (h_cables h) ++
                   map entry_of_item (bundle_items (h_cables h)))%list -> be_unit e = "m").
Proof.
  split; [apply bom_connectors_sum|].
  intros e He. apply in_app_iff in He as [He|He]; [apply (bom_cable_items_sum (h_cables h)); exact He|].
  apply in_map_iff in He as [it [<- Hit]]. apply (bundle_items_sum (h_cables h)). exact Hit.
Qed.

(** The items of [Harness.bom()] with unit '' (the connector items) have
    quantities adding up to the number of connectors of the harness: each
    connector is counted in exactly one item. *)
Theorem bom_connector_quantities (h : harness) :
  zsum (map be_qty (filter (fun e => String.eqb (be_unit e) "") (bom h))) =
  Z.of_nat (List.length (h_connectors h)).
Proof.
  rewrite (zsum_map_filter_perm _ _ _ _ (bom_split h)).
  destruct (bom_units h) as [U1 U2].
  rewrite filter_app, map_app, zsum_app.
  rewrite zsum_filter_all by (intros e He; rewrite (U1 e He); reflexivity).
  rewrite (zsum_filter_none _ _ (bom_cable_items (h_cables h) ++ _))
    by (intros e He; rewrite (U2 e He); reflexivity).
  rewrite (proj1 (bom_connectors_sum _)). lia.
Qed.

(** ** Gauge conversions: the paths that return *)

Lemma closest_fold (dist : Q -> Q -> Q) (K : Q) (l : list Q) (b : Q) :
  exists pre q post,
    fold_left (fun best x =>
               match best with
               | None => Some x
               | Some b => if negb (Qle_bool (dist b K) (dist x K)) then Some x else best
               end) l (Some b) = Some q /\
    b :: l = (pre ++ q :: post)%list /\
    (forall x, In x pre -> (dist q K < dist x K)%Q) /\
    (forall x, In x post -> (dist q K <= dist x K)%Q).
Proof.
  revert b. induction l as [|x r IH]; intros b; cbn [fold_left].
  - exists [], b, []. split; [reflexivity|]. split; [reflexivity|].
    split; intros y [].
  - destruct (Qle_bool (dist b K) (dist x K)) eqn:E; cbn [negb].
    + apply Qle_bool_iff in E.
      destruct (IH b) as [pre [q [post [Hq [Hl [Hpre Hpost]]]]]].
      destruct pre as [|b' pre0].
      * injection Hl as <- <-. exists [], b, (x :: r). split; [exact Hq|].
        split; [reflexivity|]. split; [intros y []|].
        intros y [<-|Hy]; [exact E|exact (Hpost y Hy)].
      * injection Hl as <- Hr. assert (Hb : (dist q K < dist b K)%Q) by (apply Hpre; left; reflexivity).
        exists (b :: x :: pre0), q, post. split; [exact Hq|].
        split; [rewrite Hr; reflexivity|]. split; [|exact Hpost].
        intros y [<-|[<-|Hy]].
        -- exact Hb.
        -- exact (Qlt_le_trans _ _ _ Hb E).
        -- apply Hpre. right; exact Hy.
    + assert (E' : (dist x K < dist b K)%Q).
      { apply Qnot_le_lt. intros H. apply Qle_bool_iff in H. congruence. }
      destruct (IH x) as [pre [q [post [Hq [Hl [Hpre Hpost]]]]]].
      assert (Hx : (dist q K <= dist x K)%Q).
      { destruct pre as [|x' pre0]; injection Hl as Hx _.
        - subst q. apply Qle_refl.
        - subst x'. apply Qlt_le_weak, Hpre. left; reflexivity. }
      exists (b :: pre), q, post. split; [exact Hq|].
      split; [rewrite Hl; reflexivity|]. split; [|exact Hpost].
      intros y [<-|Hy]; [exact (Qle_lt_trans _ _ _ Hx E')|exact (Hpre y Hy)].
Qed.

(** [closest(lst, K)] of a non-empty list is the first element of the list
    at minimal distance from K: every element before it is strictly
    farther, every element after it at least as far. On the empty list it
    has no result ([min] of an empty sequence raises). *)
Theorem closest_nearest (dist : Q -> Q -> Q) (lst : list Q) (K : Q) :
  (lst = [] -> closest dist lst K = None) /\
  (lst <> [] -> exists pre q post, lst = (pre ++ q :: post)%list /\
     closest dist lst K = Some q /\
     (forall x, In x pre -> (dist q K < dist x K)%Q) /\
     (forall x, In x post -> (dist q K <= dist x K)%Q)).
Proof.
  split; [intros ->; reflexivity|].
  destruct lst as [|x r]; [intros H; contradiction|intros _].
  unfold closest. cbn [fold_left].
  destruct (closest_fold dist K r x) as [pre [q [post [Hq [Hl [Hpre Hpost]]]]]].
  exists pre, q, post. split; [exact Hl|]. split; [exact Hq|]. split; [exact Hpre|exact Hpost].
Qed.

Lemma closest_nearest_witness :
  [1; 2; 4]%Q <> [] /\
  exists pre q post, [1; 2; 4]%Q = (pre ++ q :: post)%list /\
    closest (fun x k => Qabs (x - k)) [1; 2; 4]%Q (3 # 1) = Some q /\
    (forall x, In x pre -> (Qabs (q - (3 # 1)) < Qabs (x - (3 # 1)))%Q) /\
    (forall x, In x post -> (Qabs (q - (3 # 1)) <= Qabs (x - (3 # 1)))%Q).
Proof.
  split; [discriminate|].
  apply (proj2 (closest_nearest (fun x k => Qabs (x - k)) [1; 2; 4]%Q (3 # 1))).
  discriminate.
Defined.

Lemma str_all_app (P : ascii -> bool) (a b : string) :
  str_all P (a ++ b) = str_all P a && str_all P b.
Proof. induction a as [|c r IH]; simpl; [reflexivity|]. rewrite IH, andb_assoc. reflexivity. Qed.

Lemma str_all_rev (P : ascii -> bool) (s : string) : str_all P (rev_string s) = str_all P s.
Proof.
  induction s as [|c r IH]; simpl; [reflexivity|].
  rewrite str_all_app, IH. simpl. rewrite andb_true_r, andb_comm. reflexivity.
Qed.

Lemma str_app_nil_r (s : string) : s ++ "" = s.
Proof. induction s as [|c r IH]; simpl; [reflexivity|]. rewrite IH. reflexivity. Qed.

Lemma str_app_assoc (a b c : string) : (a ++ b) ++ c = a ++ (b ++ c).
Proof. induction a as [|d r IH]; simpl; [reflexivity|]. rewrite IH. reflexivity. Qed.

Lemma rev_string_app (a b : string) : rev_string (a ++ b) = rev_string b ++ rev_string a.
Proof.
  induction a as [|c r IH]; simpl.
  - rewrite str_app_nil_r. reflexivity.
  - rewrite IH, str_app_assoc. reflexivity.
Qed.

Lemma rev_string_involutive (s : string) : rev_string (rev_string s) = s.
Proof.
  induction s as [|c r IH]; simpl; [reflexivity|]. rewrite rev_string_app, IH. reflexivity.
Qed.

Lemma digit_not_int_space (c : ascii) : is_digit c = true -> int_space c = false.
Proof.
  unfold is_digit, digit_value, int_space. set (n := nat_of_ascii c).
  destruct (Nat.leb_spec 48 n), (Nat.leb_spec n 57); simpl; try discriminate; intros _;
  destruct (Nat.leb_spec 9 n), (Nat.leb_spec n 13), (Nat.eqb_spec n 32);
  simpl; try reflexivity; lia.
Qed.

Lemma int_lstrip_digits (s : string) : str_all is_digit s = true -> int_lstrip s = s.
Proof.
  destruct s as [|c r]; simpl; [reflexivity|].
  intros H. apply andb_true_iff in H as [H _]. rewrite (digit_not_int_space c H). reflexivity.
Qed.

Lemma int_strip_digits (s : string) : str_all is_digit s = true -> int_strip s = s.
Proof.
  intros H. unfold int_strip. rewrite (int_lstrip_digits s H).
  rewrite int_lstrip_digits by (rewrite str_all_rev; exact H).
  apply rev_string_involutive.
Qed.

Lemma count_digits_all (s : string) :
  str_all is_digit s = true -> count_digits s = String.length s.
Proof.
  induction s as [|c r IH]; [reflexivity|]. cbn [str_all]. intros H.
  apply andb_true_iff in H as [Hc Hr]. unfold is_digit, digit_value in Hc. cbn [count_digits].
  destruct ((48 <=? nat_of_ascii c) && (nat_of_ascii c <=? 57))%nat; [|discriminate].
  cbn [String.length]. rewrite (IH Hr). reflexivity.
Qed.

Lemma parse_digits_digits (c : ascii) (t : string) :
  forall acc prev, str_all is_digit (String c t) = true ->
  exists n, parse_digits (String c t) acc prev = Some n.
Proof.
  revert c. induction t as [|c' t' IH]; intros c acc prev H; simpl in H;
    apply andb_true_iff in H as [Hc Ht]; unfold is_digit in Hc; simpl;
    destruct (digit_value c) as [d|]; try discriminate.
  - eexists; reflexivity.
  - apply IH. exact Ht.
Qed.

Lemma take_digits_all (s : string) : str_all is_digit (take_digits s) = true.
Proof.
  induction s as [|c r IH]; simpl; [reflexivity|].
  destruct (is_digit c) eqn:E; simpl; [rewrite E, IH; reflexivity|reflexivity].
Qed.

(** A run of digits found by [re.findall(r'\d+', s)] is accepted by
    [int()] exactly when it has at most 4300 digits. *)
Lemma py_int_digit_run (s ds : string) :
  first_digit_run s = Some ds ->
  ((String.length ds <= 4300)%nat -> exists n, py_int ds = Some n) /\
  ((4300 < String.length ds)%nat -> py_int ds = None).
Proof.
  induction s as [|c r IH]; cbn [first_digit_run]; [discriminate|].
  destruct (is_digit c) eqn:Ec; [|exact IH].
  intros H. injection H as <-.
  change (take_digits (String c r))
    with (if is_digit c then String c (take_digits r) else EmptyString).
  rewrite Ec.
  assert (Hall : str_all is_digit (String c (take_digits r)) = true)
    by (simpl; rewrite Ec, take_digits_all; reflexivity).
  unfold py_int. cbv zeta. rewrite (int_strip_digits _ Hall), (count_digits_all _ Hall).
  split; intros Hlen.
  - destruct (Nat.ltb_spec 4300 (String.length (String c (take_digits r)))); [lia|].
    assert (Hp : char_eqb c "+" = false).
    { unfold char_eqb. destruct (Ascii.eqb_spec c "+") as [->|]; [discriminate|reflexivity]. }
    assert (Hm : char_eqb c "-" = false).
    { unfold char_eqb. destruct (Ascii.eqb_spec c "-") as [->|]; [discriminate|reflexivity]. }
    rewrite Hp, Hm. apply parse_digits_digits. exact Hall.
  - destruct (Nat.ltb_spec 4300 (String.length (String c (take_digits r)))); [reflexivity|lia].
Qed.

Lemma uncommon_awg_slash (awg a : string) :
  dict_get awg uncommon_awg = Some a -> contains_char "/" a = true.
Proof.
  unfold uncommon_awg. cbn [dict_get].
  repeat (destruct (String.eqb _ _); [intros H; injection H as <-; reflexivity|]).
  discriminate.
Qed.

(** [mm2_equiv] returns only for a name that is not an uncommon spelling
    and has no "/", through its first run of digits: 'Unknown (<name>)'
    when the run has more than 4300 digits ([int()] refuses it with a
    ValueError that is caught); otherwise, for the run's value n whose area
    computation succeeds, in strict mode ('yes', in any letter case) the
    result of [closest] on common_mm2 at that area, and in mode 'no' the
    string of that area. *)
Theorem mm2_equiv_result (area : Z -> result Q) (dist : Q -> Q -> Q) (qstr : Q -> string)
  (awg strict : string) (r : mm2_out) :
  mm2_equiv area dist qstr awg strict = Ok r ->
  dict_get awg uncommon_awg = None /\ contains_char "/" awg = false /\
  exists ds, first_digit_run awg = Some ds /\
    (((4300 < String.length ds)%nat /\ r = MStr ("Unknown (" ++ awg ++ ")")) \/
     (exists n q, py_int ds = Some n /\ area n = Ok q /\
        ((lower strict = "yes" /\ exists q', closest dist common_mm2 q = Some q' /\ r = MNum q') \/
         (lower strict = "no" /\ r = MStr (qstr q))))).
Proof.
  unfold mm2_equiv. cbv zeta. intros H.
  destruct (dict_get awg uncommon_awg) as [a|] eqn:Hu.
  - rewrite (uncommon_awg_slash _ _ Hu) in H.
    rewrite (substring_find_char _ _ (uncommon_awg_slash _ _ Hu)) in H. discriminate.
  - destruct (contains_char "/" awg) eqn:Hc.
    { rewrite (substring_find_char _ _ Hc) in H. discriminate. }
    split; [reflexivity|]. split; [reflexivity|].
    destruct (first_digit_run awg) as [ds|] eqn:Hd; [|discriminate].
    exists ds. split; [reflexivity|].
    destruct (py_int_digit_run _ _ Hd) as [Hsome Hnone].
    destruct (py_int ds) as [k|] eqn:Hk.
    + destruct (area k) as [q|e] eqn:Ha; cbn [bind] in H; [|discriminate].
      right. exists k, q. split; [reflexivity|]. split; [exact Ha|].
      destruct (lower strict =? "yes")%string eqn:Hy.
      * left. split; [exact (proj1 (String.eqb_eq _ _) Hy)|].
        destruct (closest dist common_mm2 q) as [q'|]; [|discriminate].
        injection H as <-. exists q'. split; reflexivity.
      * destruct (lower strict =? "no")%string eqn:Hn; [|discriminate].
        injection H as <-. right. split; [exact (proj1 (String.eqb_eq _ _) Hn)|reflexivity].
    + injection H as <-. left. split; [|reflexivity].
      destruct (Nat.ltb_spec 4300 (String.length ds)) as [Hl|Hl]; [exact Hl|].
      destruct (Hsome Hl) as [n Hn]. discriminate.
Qed.

Lemma mm2_equiv_result_witness :
  mm2_equiv (fun n => Ok (inject_Z n)) (fun x k => Qabs (x - k)) (fun _ => "") "AWG 16" "YES"
    = Ok (MNum 16) /\
  dict_get "AWG 16" uncommon_awg = None /\ contains_char "/" "AWG 16" = false /\
  exists ds, first_digit_run "AWG 16" = Some ds /\
    (((4300 < String.length ds)%nat /\ MNum 16 = MStr ("Unknown (" ++ "AWG 16" ++ ")")) \/
     (exists n q, py_int ds = Some n /\ (fun n => Ok (inject_Z n)) n = Ok q /\
        ((lower "YES" = "yes" /\ exists q',
            closest (fun x k => Qabs (x - k)) common_mm2 q = Some q' /\ MNum 16 = MNum q') \/
         (lower "YES" = "no" /\ MNum 16 = MStr ((fun _ => "") q))))).
Proof.
  assert (H : mm2_equiv (fun n => Ok (inject_Z n)) (fun x k => Qabs (x - k)) (fun _ => "")
                "AWG 16" "YES" = Ok (MNum 16)) by (vm_compute; reflexivity).
  split; [exact H|]. exact (mm2_equiv_result _ _ _ _ _ _ H).
Defined.

(** The errors of [mm2_equiv] outside the "N/0" branch, for a name that
    is not an uncommon spelling and has no "/": without a digit it raises
    IndexError (the list of digit runs is empty), whatever the mode; for
    the value n of its first run of digits, an error of the area
    computation is raised before the mode is looked at, and when the area
    is computed a mode other than 'yes' and 'no' raises
    NotImplementedError. *)
Theorem mm2_equiv_errors (area : Z -> result Q) (dist : Q -> Q -> Q) (qstr : Q -> string)
  (awg strict : string) :
  dict_get awg uncommon_awg = None -> contains_char "/" awg = false ->
  (first_digit_run awg = None -> mm2_equiv area dist qstr awg strict = Err IndexError) /\
  (forall ds n e, first_digit_run awg = Some ds -> py_int ds = Some n -> area n = Err e ->
     mm2_equiv area dist qstr awg strict = Err e) /\
  (forall ds n q, first_digit_run awg = Some ds -> py_int ds = Some n -> area n = Ok q ->
     lower strict <> "yes" -> lower strict <> "no" ->
     mm2_equiv area dist qstr awg strict = Err NotImplementedError).
Proof.
  intros Hu Hc. unfold mm2_equiv. cbv zeta. rewrite Hu, Hc. split; [|split].
  - intros Hd. rewrite Hd. reflexivity.
  - intros ds n e Hd Hn Ha. rewrite Hd, Hn, Ha. reflexivity.
  - intros ds n q Hd Hn Ha Hy Hno. rewrite Hd, Hn, Ha. cbn [bind].
    apply String.eqb_neq in Hy, Hno. rewrite Hy, Hno. reflexivity.
Qed.

Lemma mm2_equiv_errors_witness :
  (dict_get "AWG" uncommon_awg = None /\ contains_char "/" "AWG" = false /\
   first_digit_run "AWG" = None /\
   mm2_equiv capped_area (fun x k => Qabs (x - k)) (fun _ => "") "AWG" "yes" = Err IndexError) /\
  (dict_get "4000" uncommon_awg = None /\ contains_char "/" "4000" = false /\
   first_digit_run "4000" = Some "4000" /\ py_int "4000" = Some 4000 /\
   capped_area 4000 = Err OverflowError /\
   mm2_equiv capped_area (fun x k => Qabs (x - k)) (fun _ => "") "4000" "maybe"
     = Err OverflowError) /\
  (dict_get "12" uncommon_awg = None /\ contains_char "/" "12" = false /\
   first_digit_run "12" = Some "12" /\ py_int "12" = Some 12 /\ capped_area 12 = Ok (inject_Z 12) /\
   lower "maybe" <> "yes" /\ lower "maybe" <> "no" /\
   mm2_equiv capped_area (fun x k => Qabs (x - k)) (fun _ => "") "12" "maybe"
     = Err NotImplementedError).
Proof.
  assert (H1 : dict_get "AWG" uncommon_awg = None) by reflexivity.
  assert (H2 : contains_char "/" "AWG" = false) by reflexivity.
  assert (H3 : dict_get "4000" uncommon_awg = None) by reflexivity.
  assert (H4 : contains_char "/" "4000" = false) by reflexivity.
  assert (H5 : dict_get "12" uncommon_awg = None) by reflexivity.
  assert (H6 : contains_char "/" "12" = false) by reflexivity.
  assert (H7 : lower "maybe" <> "yes") by discriminate.
  assert (H8 : lower "maybe" <> "no") by discriminate.
  split; [|split].
  - split; [exact H1|]. split; [exact H2|]. split; [reflexivity|].
    exact (proj1 (mm2_equiv_errors capped_area (fun x k => Qabs (x - k)) (fun _ => "")
                    "AWG" "yes" H1 H2) eq_refl).
  - split; [exact H3|]. split; [exact H4|]. split; [reflexivity|].
    split; [vm_compute; reflexivity|]. split; [reflexivity|].
    exact (proj1 (proj2 (mm2_equiv_errors capped_area (fun x k => Qabs (x - k)) (fun _ => "")
                           "4000" "maybe" H3 H4)) "4000" 4000 OverflowError
             eq_refl ltac:(vm_compute; reflexivity) eq_refl).
  - split; [exact H5|]. split; [exact H6|]. split; [reflexivity|].
    split; [vm_compute; reflexivity|]. split; [reflexivity|].
    split; [exact H7|]. split; [exact H8|].
    exact (proj2 (proj2 (mm2_equiv_errors capped_area (fun x k => Qabs (x - k)) (fun _ => "")
                           "12" "maybe" H5 H6)) "12" 12 (inject_Z 12)
             eq_refl ltac:(vm_compute; reflexivity) eq_refl H7 H8).
Defined.

(** [awg_equiv] raises ValueError for a mode other than 'yes'/'no' (in any
    letter case), whatever the input; when it returns, it returns through
    the first run of digits of its input: 'Unknown (<input>)' when the run
    has more than 4300 digits ([int()] refuses it with a ValueError that is
    caught), otherwise the conversion of the run's value. *)
Theorem awg_equiv_outcomes (awg_of : Z -> string -> result string) (mm2 strict : string) :
  (lower strict <> "yes" -> lower strict <> "no" -> awg_equiv awg_of mm2 strict = Err ValueError) /\
  (forall r, awg_equiv awg_of mm2 strict = Ok r ->
     exists ds, first_digit_run mm2 = Some ds /\
       (((4300 < String.length ds)%nat /\ r = ("Unknown (" ++ mm2 ++ ")")) \/
        (exists n, py_int ds = Some n /\ awg_of n (lower strict) = Ok r))).
Proof.
  unfold awg_equiv. split.
  - intros Hy Hn. apply String.eqb_neq in Hy, Hn. rewrite Hy, Hn. reflexivity.
  - intros r H. destruct (negb _ && negb _); [discriminate|].
    destruct (first_digit_run mm2) as [ds|] eqn:Hd; [|discriminate].
    destruct (py_int_digit_run _ _ Hd) as [Hsome _].
    exists ds. split; [reflexivity|].
    destruct (py_int ds) as [n|] eqn:Hn.
    + right. exists n. split; [reflexivity|exact H].
    + injection H as <-. left. split; [|reflexivity].
      destruct (Nat.ltb_spec 4300 (String.length ds)) as [Hl|Hl]; [exact Hl|].
      destruct (Hsome Hl) as [k Hk]. discriminate.
Qed.

Lemma awg_equiv_outcomes_witness :
  awg_equiv (fun n _ => Ok (str_Z n)) "0.5" "Maybe" = Err ValueError /\
  exists ds, first_digit_run "16 mm2" = Some ds /\
    (((4300 < String.length ds)%nat /\ "16" = ("Unknown (" ++ "16 mm2" ++ ")")) \/
     (exists n, py_int ds = Some n /\ (fun n _ => Ok (str_Z n)) n (lower "Yes") = Ok "16")).
Proof.
  split.
  - apply (proj1 (awg_equiv_outcomes (fun n _ => Ok (str_Z n)) "0.5" "Maybe"));
      discriminate.
  - apply (proj2 (awg_equiv_outcomes (fun n _ => Ok (str_Z n)) "16 mm2" "Yes")).
    vm_compute. reflexivity.
Defined.

(** ** [expand]: its errors *)

(** [expand] raises no exception other than ValueError (from [int()] of
    a part of a hyphenated element, or from unpacking a split that does
    not have two parts). *)
Theorem expand_only_value_error (p : pinspec) (e : exn) :
  expand p = Err e -> e = ValueError.
Proof.
  assert (Hl : forall l, expand_loop l = Err e -> e = ValueError).
  { induction l as [|x r IH]; cbn [expand_loop]; [discriminate|].
    destruct (expand_elem x) eqn:Hx; cbn [bind].
    - destruct (expand_loop r); cbn [bind]; [discriminate|exact IH].
    - intros H; injection H as <-. exact (expand_elem_err _ _ Hx). }
  destruct p as [x|l]; apply Hl.
Qed.

Lemma expand_only_value_error_witness :
  expand (YScalar (YStr "a-2")) = Err ValueError /\ ValueError = ValueError.
Proof.
  assert (H : expand (YScalar (YStr "a-2")) = Err ValueError) by (vm_compute; reflexivity).
  split; [exact H|]. exact (expand_only_value_error _ _ H).
Defined.

(** ** [tuplelist2tsv]: the lines and fields of the output *)

Lemma char_eqb_refl (c : ascii) : char_eqb c c = true.
Proof. apply Ascii.eqb_refl. Qed.

Lemma contains_char_cons (c d : ascii) (r : string) :
  contains_char c (String d r) = false -> char_eqb c d = false /\ contains_char c r = false.
Proof. cbn [contains_char]. apply orb_false_iff. Qed.

Lemma split_on_free (c : ascii) (a : string) :
  contains_char c a = false -> split_on c a = [a].
Proof.
  induction a as [|d r IH]; intros H; [reflexivity|].
  apply contains_char_cons in H as [Hd Hr]. cbn [split_on]. rewrite Hd, (IH Hr). reflexivity.
Qed.

Lemma split_on_app_sep (c : ascii) (a b : string) :
  contains_char c a = false -> split_on c (a ++ String c b) = a :: split_on c b.
Proof.
  induction a as [|d r IH]; intros H; cbn [append split_on].
  - rewrite char_eqb_refl. reflexivity.
  - apply contains_char_cons in H as [Hd Hr]. rewrite Hd, (IH Hr). reflexivity.
Qed.

Lemma contains_char_app (c : ascii) (a b : string) :
  contains_char c (a ++ b) = contains_char c a || contains_char c b.
Proof. induction a as [|d r IH]; cbn [append contains_char]; [reflexivity|]. rewrite IH, orb_assoc. reflexivity. Qed.

Lemma contains_char_join (c : ascii) (sep : string) (l : list string) :
  contains_char c sep = false -> (forall s, In s l -> contains_char c s = false) ->
  contains_char c (join sep l) = false.
Proof.
  intros Hs. induction l as [|x r IH]; intros H; [reflexivity|].
  destruct r as [|y t]; [apply H; left; reflexivity|].
  change (join sep (x :: y :: t)) with (x ++ sep ++ join sep (y :: t)).
  rewrite !contains_char_app, (H x (or_introl eq_refl)), Hs, IH; [reflexivity|].
  intros s Hin; apply H; right; exact Hin.
Qed.

Lemma split_on_join (c : ascii) (l : list string) :
  l <> [] -> (forall s, In s l -> contains_char c s = false) ->
  split_on c (join (String c EmptyString) l) = l.
Proof.
  induction l as [|x r IH]; intros Hne H; [contradiction|].
  destruct r as [|y t].
  - apply split_on_free, H. left; reflexivity.
  - change (join (String c EmptyString) (x :: y :: t))
      with (x ++ String c EmptyString ++ join (String c EmptyString) (y :: t)).
    cbn [append]. rewrite split_on_app_sep by (apply H; left; reflexivity).
    rewrite IH; [reflexivity|discriminate|intros s Hin; apply H; right; exact Hin].
Qed.

Lemma tsv_fold (rows : list (list string)) (acc : string) :
  fold_left (fun output row => output ++ join tab row ++ nl) rows acc =
  acc ++ fold_right (fun row o => join tab row ++ nl ++ o) "" rows.
Proof.
  revert acc. induction rows as [|row r IH]; intros acc; cbn [fold_left fold_right].
  - rewrite str_app_nil_r. reflexivity.
  - rewrite IH, !str_app_assoc. reflexivity.
Qed.

Lemma tsv_lines (rows : list (list string)) :
  (forall row, In row rows -> forall s, In s row -> contains_char (ascii_of_nat 10) s = false) ->
  split_on (ascii_of_nat 10) (fold_right (fun row o => join tab row ++ nl ++ o) "" rows) =
  (map (join tab) rows ++ [""])%list.
Proof.
  induction rows as [|row r IH]; intros H; [reflexivity|].
  cbn [fold_right map app]. unfold nl at 1. cbn [append].
  rewrite split_on_app_sep.
  - rewrite IH; [reflexivity|intros row' Hr; apply H; right; exact Hr].
  - apply contains_char_join; [reflexivity|]. apply H. left; reflexivity.
Qed.

(** [tuplelist2tsv(inp, header)] puts the header in front of the caller's
    list (the list passed in is changed), and writes one line per row, each
    ended by a newline, with the fields separated by tabs. When no field is
    empty as a row and no field holds a tab or a newline, splitting the
    output at the newlines and each line at the tabs gives back the string
    table of [flatten2d], followed by the empty piece after the last
    newline. *)
Theorem tuplelist2tsv_round_trip (inp : list (list cell)) (header : option (list cell)) :
  let rows := match header with Some hd => hd :: inp | None => inp end in
  (forall row, In row (flatten2d rows) -> row <> [] /\
     forall s, In s row -> contains_char (ascii_of_nat 9) s = false /\
                          contains_char (ascii_of_nat 10) s = false) ->
  snd (tuplelist2tsv inp header) = rows /\
  map (split_on (ascii_of_nat 9)) (split_on (ascii_of_nat 10) (fst (tuplelist2tsv inp header))) =
  (flatten2d rows ++ [[""]])%list.
Proof.
  intros rows H. unfold tuplelist2tsv. fold rows. cbn [fst snd]. split; [reflexivity|].
  rewrite tsv_fold. cbn [append]. rewrite tsv_lines.
  - rewrite map_app, map_map. cbn [map]. f_equal.
    transitivity (map (fun row => row) (flatten2d rows)); [|apply map_id].
    apply map_ext_in. intros row Hr. apply split_on_join; [apply (H row Hr)|].
    intros s Hs. apply (proj2 (H row Hr) s Hs).
  - intros row Hr s Hs. apply (proj2 (H row Hr) s Hs).
Qed.

Lemma tuplelist2tsv_round_trip_witness :
  snd (tuplelist2tsv [[CStr "Wire, red"; CInt 2]] (Some [CStr "Item"; CStr "Qty"])) =
    [[CStr "Item"; CStr "Qty"]; [CStr "Wire, red"; CInt 2]] /\
  map (split_on (ascii_of_nat 9))
      (split_on (ascii_of_nat 10)
         (fst (tuplelist2tsv [[CStr "Wire, red"; CInt 2]] (Some [CStr "Item"; CStr "Qty"])))) =
  (flatten2d [[CStr "Item"; CStr "Qty"]; [CStr "Wire, red"; CInt 2]] ++ [[""]])%list.
Proof.
  apply (tuplelist2tsv_round_trip [[CStr "Wire, red"; CInt 2]] (Some [CStr "Item"; CStr "Qty"])).
  cbv zeta. intros row Hrow. vm_compute in Hrow.
  destruct Hrow as [<-|[<-|[]]]; (split; [discriminate|]);
    intros s Hs; vm_compute in Hs;
    destruct Hs as [<-|[<-|[]]]; split; reflexivity.
Defined.

(** ** [bom_list]: the table handed to [tuplelist2tsv] *)

(** [bom_list()] is a header row followed by one row per BOM entry, in the
    order of [bom()]. The header is Item, Qty, Unit, Designators, with a
    fifth column Part number exactly when some entry has a part number;
    every row has as many cells as the header, and no cell is a list any
    more (designator lists are joined with ", "). *)
Theorem bom_list_table (h : harness) :
  let pn := existsb has_part_number (bom h) in
  hd [] (bom_list h) =
    ([CStr "Item"; CStr "Qty"; CStr "Unit"; CStr "Designators"] ++
     (if pn then [CStr "Part number"] else []))%list /\
  List.length (bom_list h) = S (List.length (bom h)) /\
  (forall row, In row (bom_list h) -> List.length row = if pn then 5%nat else 4%nat) /\
  (forall row x, In row (bom_list h) -> In x row -> forall l, x <> CList l).
Proof.
  cbv zeta. unfold bom_list. cbv zeta.
  destruct (existsb has_part_number (bom h)) eqn:Hpn.
  - split; [reflexivity|]. split; [cbn [List.length]; rewrite length_map; reflexivity|].
    split.
    + intros row [<-|Hr]; [reflexivity|]. apply in_map_iff in Hr as [e [<- _]].
      rewrite length_map. reflexivity.
    + intros row x [<-|Hr] Hx l.
      * cbn [map app] in Hx. destruct Hx as [<-|[<-|[<-|[<-|[<-|[]]]]]]; discriminate.
      * apply in_map_iff in Hr as [e [<- _]]. apply in_map_iff in Hx as [k [<- _]].
        destruct (entry_get e k); discriminate.
  - split; [reflexivity|]. split; [cbn [List.length]; rewrite length_map; reflexivity|].
    split.
    + intros row [<-|Hr]; [reflexivity|]. apply in_map_iff in Hr as [e [<- _]].
      rewrite length_map. reflexivity.
    + intros row x [<-|Hr] Hx l.
      * cbn [map app] in Hx. destruct Hx as [<-|[<-|[<-|[<-|[]]]]]; discriminate.
      * apply in_map_iff in Hr as [e [<- _]]. apply in_map_iff in Hx as [k [<- _]].
        destruct (entry_get e k); discriminate.
Qed.

(** ** Line-break helpers *)

Lemma substring_0_ge (s : string) (m : nat) :
  (String.length s <= m)%nat -> substring 0 m s = s.
Proof.
  revert m. induction s as [|c r IH]; intros m Hm; destruct m as [|m]; cbn in *;
    try reflexivity; try lia.
  rewrite IH by lia. reflexivity.
Qed.

Lemma char_eqb_sym (a b : ascii) : char_eqb a b = char_eqb b a.
Proof. unfold char_eqb. destruct (Ascii.eqb_spec a b), (Ascii.eqb_spec b a); congruence. Qed.

(** Replacing every occurrence of a character by a text without that
    character leaves no occurrence of it. *)
Lemma replace_fuel_removes (c : ascii) (new : string) (fuel : nat) (s : string) :
  contains_char c new = false -> (String.length s <= fuel)%nat ->
  contains_char c (replace_fuel fuel (String c EmptyString) new s) = false.
Proof.
  intros Hn. revert s. induction fuel as [|f IH]; intros s Hl.
  - destruct s; [reflexivity|cbn in Hl; lia].
  - destruct s as [|d r]; [reflexivity|]. cbn [replace_fuel].
    destruct (String.prefix (String c EmptyString) (String d r)) eqn:Hp.
    + rewrite contains_char_app, Hn. cbn [orb].
      change (String.length (String c EmptyString)) with 1%nat.
      change (String.length (String d r)) with (S (String.length r)).
      cbn [substring]. rewrite substring_0_ge by lia. apply IH. cbn in Hl. lia.
    + cbn [contains_char]. apply orb_false_iff. split.
      * unfold char_eqb.
        destruct (Ascii.eqb_spec c d) as [<-|]; [|reflexivity].
        cbn [String.prefix] in Hp. destruct (ascii_dec c c); [|contradiction].
        destruct r; cbn in Hp; discriminate.
      * apply IH. cbn in Hl. lia.
Qed.

(** Replacing the newlines of a string without newlines changes nothing. *)
Lemma replace_fuel_absent (c : ascii) (new : string) (fuel : nat) (s : string) :
  contains_char c s = false -> replace_fuel fuel (String c EmptyString) new s = s.
Proof.
  revert s. induction fuel as [|f IH]; intros s Hs; [reflexivity|].
  destruct s as [|d r]; [reflexivity|]. apply contains_char_cons in Hs as [Hd Hr].
  cbn [replace_fuel]. cbn [String.prefix].
  destruct (ascii_dec c d) as [<-|]; [rewrite char_eqb_refl in Hd; discriminate|].
  rewrite (IH r Hr). reflexivity.
Qed.

Lemma no_char_str_all (c : ascii) (s : string) :
  contains_char c s = false <-> str_all (fun d => negb (char_eqb c d)) s = true.
Proof.
  induction s as [|d r IH]; cbn [contains_char str_all]; [split; reflexivity|].
  rewrite orb_false_iff, andb_true_iff, negb_true_iff, IH. reflexivity.
Qed.

Lemma str_all_lstrip (P : ascii -> bool) (s : string) :
  str_all P s = true -> str_all P (lstrip s) = true.
Proof.
  induction s as [|d r IH]; cbn [lstrip]; [reflexivity|].
  destruct (is_space d); [|exact (fun H => H)].
  cbn [str_all]. intros H. apply andb_true_iff in H as [_ H]. exact (IH H).
Qed.

Lemma lstrip_head (s : string) :
  lstrip s = EmptyString \/ exists d r, lstrip s = String d r /\ is_space d = false.
Proof.
  induction s as [|d r IH]; cbn [lstrip]; [left; reflexivity|].
  destruct (is_space d) eqn:E; [exact IH|right; exists d, r; split; [reflexivity|exact E]].
Qed.

Lemma rev_string_snoc (u : string) (c : ascii) :
  rev_string (u ++ String c EmptyString) = String c (rev_string u).
Proof. rewrite rev_string_app. reflexivity. Qed.

Lemma rstrip_last (s u : string) (c : ascii) :
  rstrip s = u ++ String c EmptyString -> is_space c = false.
Proof.
  unfold rstrip. intros H. apply (f_equal rev_string) in H.
  rewrite rev_string_involutive, rev_string_snoc in H.
  destruct (lstrip_head (rev_string s)) as [E|[d [r [E Hd]]]]; rewrite E in H.
  - discriminate.
  - injection H as -> _. exact Hd.
Qed.

(** [html_line_breaks] and [graphviz_line_breaks] leave no newline in a
    string ("<br />" and the two characters backslash and n contain none),
    return a string without newlines unchanged, and return a value that is
    not a string as it is. *)
Theorem line_breaks_replace (s : string) (x : scalar) :
  (exists t, html_line_breaks (YStr s) = YStr t /\ contains_char (ascii_of_nat 10) t = false) /\
  (exists t, graphviz_line_breaks (YStr s) = YStr t /\ contains_char (ascii_of_nat 10) t = false) /\
  (contains_char (ascii_of_nat 10) s = false ->
     html_line_breaks (YStr s) = YStr s /\ graphviz_line_breaks (YStr s) = YStr s) /\
  ((forall u, x <> YStr u) -> html_line_breaks x = x /\ graphviz_line_breaks x = x).
Proof.
  split; [|split; [|split]].
  - eexists; split; [reflexivity|]. apply replace_fuel_removes; [reflexivity|lia].
  - eexists; split; [reflexivity|]. apply replace_fuel_removes; [reflexivity|lia].
  - intros H. unfold html_line_breaks, graphviz_line_breaks, replace, nl.
    rewrite !replace_fuel_absent by exact H. split; reflexivity.
  - intros H. destruct x as [z|u|b|]; [split; reflexivity| |split; reflexivity|split; reflexivity].
    exfalso. exact (H u eq_refl).
Qed.

Lemma line_breaks_replace_witness :
  (exists t, html_line_breaks (YStr "a b") = YStr t /\ contains_char (ascii_of_nat 10) t = false) /\
  (exists t, graphviz_line_breaks (YStr "a b") = YStr t /\ contains_char (ascii_of_nat 10) t = false) /\
  (contains_char (ascii_of_nat 10) "a b" = false ->
     html_line_breaks (YStr "a b") = YStr "a b" /\ graphviz_line_breaks (YStr "a b") = YStr "a b") /\
  ((forall u, YInt 3 <> YStr u) -> html_line_breaks (YInt 3) = YInt 3 /\
                                  graphviz_line_breaks (YInt 3) = YInt 3).
Proof. exact (line_breaks_replace "a b" (YInt 3)). Defined.

(** [remove_line_breaks] of a string returns a string without newlines
    whose last character, if any, is not whitespace: the newlines become
    spaces and the trailing whitespace is stripped. *)
Theorem remove_line_breaks_result (s : string) :
  exists t, remove_line_breaks (YStr s) = YStr t /\
    contains_char (ascii_of_nat 10) t = false /\
    forall u c, t = u ++ String c EmptyString -> is_space c = false.
Proof.
  eexists. split; [reflexivity|]. split.
  - unfold rstrip. apply no_char_str_all. rewrite str_all_rev. apply str_all_lstrip.
    rewrite str_all_rev. apply no_char_str_all.
    apply replace_fuel_removes; [reflexivity|lia].
  - intros u c H. exact (rstrip_last _ _ _ H).
Qed.

(** ** [Cable.__post_init__]: a gauge given as text *)

Lemma split_on_nonempty (c : ascii) (s : string) : split_on c s <> [].
Proof.
  induction s as [|d r IH]; cbn [split_on]; [discriminate|].
  destruct (char_eqb c d); [discriminate|]. destruct (split_on c r); discriminate.
Qed.

Lemma join_cons_char (sep : string) (d : ascii) (p : string) (ps : list string) :
  join sep (String d p :: ps) = String d (join sep (p :: ps)).
Proof. destruct ps; reflexivity. Qed.

(** [sep.join(s.split(sep))] gives [s] back. *)
Lemma join_split_on (c : ascii) (s : string) :
  join (String c EmptyString) (split_on c s) = s.
Proof.
  induction s as [|d r IH]; [reflexivity|]. cbn [split_on].
  destruct (char_eqb c d) eqn:E.
  - unfold char_eqb in E. apply Ascii.eqb_eq in E as <-.
    pose proof (split_on_nonempty c r) as Hne.
    destruct (split_on c r) as [|p ps]; [contradiction|].
    change (join (String c EmptyString) ("" :: p :: ps))
      with ("" ++ String c EmptyString ++ join (String c EmptyString) (p :: ps)).
    rewrite IH. reflexivity.
  - pose proof (split_on_nonempty c r) as Hne.
    destruct (split_on c r) as [|p ps]; [contradiction|].
    rewrite join_cons_char, IH. reflexivity.
Qed.

Lemma split_on_parts_free (c : ascii) (s p : string) :
  In p (split_on c s) -> contains_char c p = false.
Proof.
  revert p. induction s as [|d r IH]; intros p; cbn [split_on].
  - intros [<-|[]]. reflexivity.
  - destruct (char_eqb c d) eqn:E.
    + intros [<-|Hp]; [reflexivity|exact (IH p Hp)].
    + pose proof (IH) as IH'. destruct (split_on c r) as [|q qs].
      * intros [<-|[]]. cbn [contains_char]. rewrite E. reflexivity.
      * intros [<-|Hp].
        -- cbn [contains_char]. rewrite E. apply IH'. left; reflexivity.
        -- apply IH'. right; exact Hp.
Qed.

(** A gauge given as a string is accepted exactly when it holds one
    space: the text before the space becomes the gauge and the text after
    it the unit, with "mm2" written as mm followed by a superscript two; a
    unit given separately is then ignored. Any other string raises the
    "Gauge must be a number, or number and unit separated by a space"
    exception, and nothing else. *)
Theorem cable_gauge_text (s : string) (unit : option string) :
  (forall g un, cable_gauge (GText s) unit = Ok (g, un) ->
     exists a b, g = GText a /\ un = Some (replace "mm2" mm_sq b) /\
       s = (a ++ " " ++ b) /\ contains_char " " a = false /\ contains_char " " b = false) /\
  (forall a b, s = (a ++ " " ++ b) -> contains_char " " a = false -> contains_char " " b = false ->
     cable_gauge (GText s) unit = Ok (GText a, Some (replace "mm2" mm_sq b))) /\
  (forall e, cable_gauge (GText s) unit = Err e ->
     e = Exception "Gauge must be a number, or number and unit separated by a space").
Proof.
  cbn [cable_gauge]. split; [|split].
  - intros g un H. destruct (split_on " " s) as [|a [|b [|t ts]]] eqn:Hs; try discriminate.
    injection H as <- <-. exists a, b. split; [reflexivity|]. split; [reflexivity|].
    split; [|split].
    + rewrite <- (join_split_on " " s), Hs. reflexivity.
    + apply (split_on_parts_free " " s). rewrite Hs. left; reflexivity.
    + apply (split_on_parts_free " " s). rewrite Hs. right; left; reflexivity.
  - intros a b -> Ha Hb. change (" " ++ b) with (String " " b).
    rewrite split_on_app_sep by exact Ha.
    rewrite (split_on_free _ _ Hb). reflexivity.
  - intros e. destruct (split_on " " s) as [|a [|b [|t ts]]]; try discriminate;
      intros H; injection H as <-; reflexivity.
Qed.

Lemma cable_gauge_text_witness :
  cable_gauge (GText "0.25 mm2") None = Ok (GText "0.25", Some mm_sq) /\
  (forall g un, cable_gauge (GText "0.25 mm2") None = Ok (g, un) ->
     exists a b, g = GText a /\ un = Some (replace "mm2" mm_sq b) /\
       "0.25 mm2" = (a ++ " " ++ b) /\ contains_char " " a = false /\ contains_char " " b = false).
Proof.
  split.
  - transitivity (Ok (GText "0.25", Some (replace "mm2" mm_sq "mm2")) : result (gauge * option string)).
    + apply (proj1 (proj2 (cable_gauge_text "0.25 mm2" None)) "0.25" "mm2");
        reflexivity.
    + reflexivity.
  - exact (proj1 (cable_gauge_text "0.25 mm2" None)).
Defined.

(** ** Two-element records: connector-to-connector loops *)

Section DictSet.
Context {V : Type}.

Lemma dict_set_twice (k : string) (v1 v2 : V) (d : list (string * V)) :
  dict_set k v2 (dict_set k v1 d) = dict_set k v2 d.
Proof.
  induction d as [|[k' v'] r IH]; cbn [dict_set].
  - rewrite String.eqb_refl. reflexivity.
  - destruct (String.eqb k k') eqn:E; cbn [dict_set]; rewrite E; [reflexivity|].
    rewrite IH. reflexivity.
Qed.

Lemma dict_keys_set_mem (k : string) (v : V) (d : list (string * V)) :
  dict_mem k d = true -> dict_keys (dict_set k v d) = dict_keys d.
Proof.
  unfold dict_mem. induction d as [|[k' v'] r IH]; cbn [dict_get dict_set]; [discriminate|].
  destruct (String.eqb k k'); [reflexivity|]. intros H. cbn [dict_keys map].
  unfold dict_keys in IH. rewrite (IH H). reflexivity.
Qed.

Lemma dict_keys_set_prefix (k : string) (v : V) (d : list (string * V)) :
  exists extra, dict_keys (dict_set k v d) = (dict_keys d ++ extra)%list.
Proof.
  induction d as [|[k' v'] r [extra IH]]; cbn [dict_set].
  - exists [k]. reflexivity.
  - destruct (String.eqb k k').
    + exists []. rewrite app_nil_r. reflexivity.
    + exists extra. cbn [dict_keys map] in *. unfold dict_keys in IH. rewrite IH. reflexivity.
Qed.

End DictSet.

Lemma map_fst_combine {A B} (l : list A) (l' : list B) :
  List.length l = List.length l' -> map fst (combine l l') = l.
Proof.
  revert l'. induction l as [|a r IH]; intros [|b t] H; cbn in *; try lia; try reflexivity.
  rewrite IH by lia. reflexivity.
Qed.

Lemma map_snd_combine {A B} (l : list A) (l' : list B) :
  List.length l = List.length l' -> map snd (combine l l') = l'.
Proof.
  revert l'. induction l as [|a r IH]; intros [|b t] H; cbn in *; try lia; try reflexivity.
  rewrite IH by lia. reflexivity.
Qed.

Lemma loop_pairs_fold (name : string) (ps : list (pin * pin)) :
  forall h c, dict_get name (h_connectors h) = Some c ->
  loop_pairs h name ps =
    Ok {| h_connectors := dict_set name
            (fold_left (fun c' pp => connector_loop (fst pp) (snd pp) c') ps c)
            (h_connectors h);
          h_cables := h_cables h |}.
Proof.
  induction ps as [|[fp tp] r IH]; intros h c Hc; cbn [loop_pairs fold_left].
  - destruct h as [cs cbs]. cbn in *. f_equal. f_equal.
    induction cs as [|[k v] t IHt]; cbn in *; [discriminate|].
    destruct (String.eqb name k) eqn:E.
    + injection Hc as ->. reflexivity.
    + f_equal. exact (IHt Hc).
  - unfold harness_loop. rewrite Hc. cbn [bind fst snd].
    rewrite (IH _ (connector_loop fp tp c)).
    + cbn [h_connectors h_cables]. rewrite dict_set_twice. reflexivity.
    + cbn [h_connectors]. apply dict_get_set_eq.
Qed.

Lemma connector_loops_fold (ps : list (pin * pin)) :
  forall c, let c' := fold_left (fun c' pp => connector_loop (fst pp) (snd pp) c') ps c in
  c_name c' = c_name c /\ c_pincount c' = c_pincount c /\
  c_loops c' = (c_loops c ++ ps)%list /\
  c_hide_disconnected_pins c' = c_hide_disconnected_pins c /\
  (c_hide_disconnected_pins c = false -> c_visible_pins c' = c_visible_pins c) /\
  (c_hide_disconnected_pins c = true -> forall p,
     In p (c_visible_pins c') <-> In p (c_visible_pins c) \/ In p (map fst ps) \/ In p (map snd ps)).
Proof.
  induction ps as [|[fp tp] r IH]; intros c; cbn [fold_left fst snd].
  - rewrite app_nil_r. split; [reflexivity|]. split; [reflexivity|]. split; [reflexivity|].
    split; [reflexivity|]. split; [reflexivity|]. intros _ p. cbn. tauto.
  - destruct (IH (connector_loop fp tp c)) as [Hn [Hp [Hl [Hh [Hv Hv']]]]].
    cbn [connector_loop c_name c_pincount c_loops c_hide_disconnected_pins c_visible_pins] in *.
    split; [exact Hn|]. split; [exact Hp|]. split; [rewrite Hl, <- app_assoc; reflexivity|].
    split; [exact Hh|]. split.
    + intros H. rewrite Hv by exact H. rewrite H. reflexivity.
    + intros H p. rewrite (Hv' H p). rewrite H, !set_visible_in. cbn [map In]. split; intros HH; intuition (subst; auto).
Qed.

(** A 2-element record whose names match only the (connector, connector)
    pattern, for a connector [n0] of the harness: unequal pin expansions
    fail with "List length mismatch"; otherwise the pin pairs are appended
    to the loops of the first connector only, in order; its shown pins
    grow by the looped pins when it hides disconnected pins and are left
    alone otherwise; the other connectors, the cables and the ferrule
    counter do not change. *)
Theorem connector_loop_record :
  forall (doc : document) (st : state) (c0 c1 : element) (n0 n1 : string)
    (p0 p1 : pinspec) (ps0 ps1 : list pin) (c : connector),
  check_keys2 c0 = Ok tt -> check_keys2 c1 = Ok tt ->
  normalize2 c0 = Ok (n0, p0) -> normalize2 c1 = Ok (n1, p1) ->
  role_patterns doc n0 n1 = [false; false; true; false; false] ->
  expand p0 = Ok ps0 -> expand p1 = Ok ps1 ->
  dict_get n0 (h_connectors (st_harness st)) = Some c ->
  (List.length ps0 <> List.length ps1 ->
   process2 doc st c0 c1 = Err (Exception "List length mismatch")) /\
  (List.length ps0 = List.length ps1 ->
   exists st' c', process2 doc st c0 c1 = Ok st' /\
     st_ferrule_counter st' = st_ferrule_counter st /\
     h_cables (st_harness st') = h_cables (st_harness st) /\
     dict_keys (h_connectors (st_harness st')) = dict_keys (h_connectors (st_harness st)) /\
     dict_get n0 (h_connectors (st_harness st')) = Some c' /\
     c_loops c' = (c_loops c ++ combine ps0 ps1)%list /\
     (c_hide_disconnected_pins c = false -> c_visible_pins c' = c_visible_pins c) /\
     (c_hide_disconnected_pins c = true -> forall p,
        In p (c_visible_pins c') <-> In p (c_visible_pins c) \/ In p ps0 \/ In p ps1) /\
     (forall n, n <> n0 ->
        dict_get n (h_connectors (st_harness st')) = dict_get n (h_connectors (st_harness st)))).
Proof.
  intros doc st c0 c1 n0 n1 p0 p1 ps0 ps1 c Hk0 Hk1 Hn0 Hn1 Hr E0 E1 Hc.
  pose proof (f_equal (fun l => nth 0 l true) Hr) as R1.
  pose proof (f_equal (fun l => nth 1 l true) Hr) as R2.
  pose proof (f_equal (fun l => nth 2 l true) Hr) as R3.
  pose proof (f_equal (fun l => nth 3 l true) Hr) as R4.
  pose proof (f_equal (fun l => nth 4 l true) Hr) as R5.
  cbv [role_patterns map nth] in R1, R2, R3, R4, R5. clear Hr.
  assert (Hproc : process2 doc st c0 c1 =
    if negb (Nat.eqb (List.length ps0) (List.length ps1))
    then raise (Exception "List length mismatch")
    else let* h1 := loop_pairs (st_harness st) n0 (combine ps0 ps1) in
         Ok {| st_harness := h1; st_ferrule_counter := st_ferrule_counter st |}).
  { unfold process2. rewrite Hk0, Hk1. cbn [bind]. rewrite Hn0, Hn1. cbn [bind].
    rewrite R1, R2, R3, R4, R5. cbn [orb negb]. rewrite E0, E1. cbn [bind].
    destruct (negb (Nat.eqb (List.length ps0) (List.length ps1))); [reflexivity|].
    destruct (loop_pairs (st_harness st) n0 (combine ps0 ps1)); reflexivity. }
  split.
  - intros H. rewrite Hproc. apply Nat.eqb_neq in H. rewrite H. reflexivity.
  - intros H. rewrite Hproc, (proj2 (Nat.eqb_eq _ _) H). cbn [negb].
    rewrite (loop_pairs_fold n0 (combine ps0 ps1) (st_harness st) c Hc). cbn [bind].
    destruct (connector_loops_fold (combine ps0 ps1) c) as [_ [_ [Hl [_ [Hv Hv']]]]].
    eexists _, _. split; [reflexivity|]. cbn [st_ferrule_counter st_harness h_cables h_connectors].
    split; [reflexivity|]. split; [reflexivity|]. split.
    { apply dict_keys_set_mem. unfold dict_mem. rewrite Hc. reflexivity. }
    split; [apply dict_get_set_eq|]. split; [exact Hl|]. split; [exact Hv|]. split.
    + intros Hh p. rewrite (Hv' Hh p), map_fst_combine, map_snd_combine by exact H.
      reflexivity.
    + intros n Hne. apply dict_get_set_neq. exact Hne.
Qed.

Lemma connector_loop_record_witness :
  exists c, dict_get "X1" (h_connectors (declared_harness loop_doc)) = Some c /\
  exists st' c', process2 loop_doc {| st_harness := declared_harness loop_doc;
                                      st_ferrule_counter := 0 |}
                   (EDict [("X1", YList [YInt 1; YInt 2])])
                   (EDict [("X1", YList [YInt 2; YInt 1])]) = Ok st' /\
     st_ferrule_counter st' = 0 /\
     h_cables (st_harness st') = h_cables (declared_harness loop_doc) /\
     dict_keys (h_connectors (st_harness st')) = dict_keys (h_connectors (declared_harness loop_doc)) /\
     dict_get "X1" (h_connectors (st_harness st')) = Some c' /\
     c_loops c' = (c_loops c ++ combine [PInt 1; PInt 2] [PInt 2; PInt 1])%list /\
     (c_hide_disconnected_pins c = false -> c_visible_pins c' = c_visible_pins c) /\
     (c_hide_disconnected_pins c = true -> forall p,
        In p (c_visible_pins c') <->
        In p (c_visible_pins c) \/ In p [PInt 1; PInt 2] \/ In p [PInt 2; PInt 1]) /\
     (forall n, n <> "X1" ->
        dict_get n (h_connectors (st_harness st')) =
        dict_get n (h_connectors (declared_harness loop_doc))).
Proof.
  destruct (dict_get "X1" (h_connectors (declared_harness loop_doc))) as [c|] eqn:Hc;
    [|vm_compute in Hc; discriminate].
  exists c. split; [reflexivity|].
  apply (proj2 (connector_loop_record loop_doc
      {| st_harness := declared_harness loop_doc; st_ferrule_counter := 0 |}
      (EDict [("X1", YList [YInt 1; YInt 2])]) (EDict [("X1", YList [YInt 2; YInt 1])])
      "X1" "X1" (YList [YInt 1; YInt 2]) (YList [YInt 2; YInt 1])
      [PInt 1; PInt 2] [PInt 2; PInt 1] c eq_refl eq_refl eq_refl eq_refl
      ltac:(vm_compute; reflexivity) eq_refl eq_refl Hc)).
  reflexivity.
Defined.

(** ** Two-element records: connector and cable *)

Lemma activate_end_keys (e : option (string * pin)) (cs : list (string * connector)) :
  dict_keys (activate_end e cs) = dict_keys cs.
Proof.
  destruct e as [[m q]|]; cbn [activate_end]; [|reflexivity].
  destruct (dict_get m cs) eqn:E; [|reflexivity].
  apply dict_keys_set_mem. unfold dict_mem. rewrite E. reflexivity.
Qed.

Lemma harness_connect_keys (h h' : harness) (fr : option (string * pin)) (vn : string)
  (vp : pin) (to : option (string * pin)) :
  harness_connect h fr vn vp to = Ok h' ->
  dict_keys (h_cables h') = dict_keys (h_cables h) /\
  dict_keys (h_connectors h') = dict_keys (h_connectors h).
Proof.
  unfold harness_connect. destruct (dict_get vn (h_cables h)) eqn:E; [|discriminate].
  cbn. intros H. injection H as <-. cbn [h_cables h_connectors]. split.
  - apply dict_keys_set_mem. unfold dict_mem. rewrite E. reflexivity.
  - rewrite !activate_end_keys. reflexivity.
Qed.




(** ** Sequences of connection records *)

(** The records are processed one after the other, from the state the
    previous one left: running a concatenation runs the first part, then
    the second from its result, and stops at the first failing record. *)
Lemma process_records_app (doc : document) (st : state) (l1 l2 : list (list element)) :
  process_records doc st (l1 ++ l2) =
  (let* st1 := process_records doc st l1 in process_records doc st1 l2).
Proof.
  revert st. induction l1 as [|con r IH]; intros st; cbn [app process_records bind];
    [reflexivity|].
  destruct (process_record doc st con); cbn [bind]; [apply IH|reflexivity].
Qed.

Lemma process_records_err_prop (doc : document) (cons : list (list element)) :
  forall st con,
  In con cons -> (forall st0, exists e, process_record doc st0 con = Err e) ->
  exists e, process_records doc st cons = Err e.
Proof.
  induction cons as [|c r IH]; intros st con Hin Hbad; [destruct Hin|].
  cbn [process_records]. destruct Hin as [<-|Hin].
  - destruct (Hbad st) as [e He]. rewrite He. exists e. reflexivity.
  - destruct (process_record doc st c) as [st1|e]; cbn [bind].
    + exact (IH st1 con Hin Hbad).
    + exists e. reflexivity.
Qed.

(** A record that has neither two nor three elements makes the whole
    list of records fail, whatever comes before it; when no earlier record
    fails, the error is "Wrong number of connection parameters". *)
Theorem process_records_bad_arity (doc : document) (st : state)
  (cons : list (list element)) (con : list element) :
  In con cons -> List.length con <> 2%nat -> List.length con <> 3%nat ->
  (exists e, process_records doc st cons = Err e) /\
  (forall pre post st1, cons = (pre ++ con :: post)%list ->
     process_records doc st pre = Ok st1 ->
     process_records doc st cons = Err (Exception "Wrong number of connection parameters")).
Proof.
  intros Hin H2 H3.
  assert (Hrec : forall st0, process_record doc st0 con =
                   Err (Exception "Wrong number of connection parameters")).
  { intros st0. destruct con as [|a [|b [|c [|d t]]]]; cbn in H2, H3; try lia; reflexivity. }
  split.
  - apply (process_records_err_prop doc cons st con Hin).
    intros st0. exists (Exception "Wrong number of connection parameters"). apply Hrec.
  - intros pre post st1 -> Hpre. rewrite process_records_app, Hpre. cbn [bind process_records].
    rewrite Hrec. reflexivity.
Qed.

Lemma process_records_bad_arity_witness :
  In [EName "X1"] [[EName "X1"]] /\ List.length [EName "X1"] <> 2%nat /\
  List.length [EName "X1"] <> 3%nat /\
  (exists e, process_records loop_doc {| st_harness := declared_harness loop_doc;
                                         st_ferrule_counter := 0 |} [[EName "X1"]] = Err e) /\
  process_records loop_doc {| st_harness := declared_harness loop_doc; st_ferrule_counter := 0 |}
    [[EName "X1"]] = Err (Exception "Wrong number of connection parameters").
Proof.
  assert (Hin : In [EName "X1"] [[EName "X1"]]) by (left; reflexivity).
  assert (H2 : List.length [EName "X1"] <> 2%nat) by discriminate.
  assert (H3 : List.length [EName "X1"] <> 3%nat) by discriminate.
  destruct (process_records_bad_arity loop_doc
              {| st_harness := declared_harness loop_doc; st_ferrule_counter := 0 |}
              [[EName "X1"]] [EName "X1"] Hin H2 H3) as [He Hw].
  split; [exact Hin|]. split; [exact H2|]. split; [exact H3|]. split; [exact He|].
  exact (Hw [] [] _ eq_refl eq_refl).
Defined.

(** *** The designators a run may add *)

Lemma dict_keys_set_extra {V} (k : string) (v : V) (d : list (string * V)) :
  exists extra, dict_keys (dict_set k v d) = (dict_keys d ++ extra)%list /\
                (forall n, In n extra -> n = k).
Proof.
  induction d as [|[k' v'] r [extra [IH Hx]]]; cbn [dict_set].
  - exists [k]. split; [reflexivity|]. intros n [<-|[]]. reflexivity.
  - destruct (String.eqb k k').
    + exists []. rewrite app_nil_r. split; [reflexivity|intros n []].
    + exists extra. cbn [dict_keys map] in *. unfold dict_keys in IH. rewrite IH.
      split; [reflexivity|exact Hx].
Qed.

Lemma names_grow_refl (st : state) : names_grow st st.
Proof.
  split; [reflexivity|]. split; [lia|]. exists []. rewrite app_nil_r.
  split; [reflexivity|intros n []].
Qed.

Lemma names_grow_trans (s1 s2 s3 : state) :
  names_grow s1 s2 -> names_grow s2 s3 -> names_grow s1 s3.
Proof.
  intros [Hc1 [Hn1 [x1 [Hk1 Hx1]]]] [Hc2 [Hn2 [x2 [Hk2 Hx2]]]].
  split; [congruence|]. split; [lia|]. exists (x1 ++ x2)%list.
  split; [rewrite Hk2, Hk1, app_assoc; reflexivity|].
  intros n Hn. apply in_app_iff in Hn as [Hn|Hn].
  - destruct (Hx1 n Hn) as [i [-> Hi]]. exists i. split; [reflexivity|lia].
  - destruct (Hx2 n Hn) as [i [-> Hi]]. exists i. split; [reflexivity|lia].
Qed.

Lemma names_grow_harness (st : state) (h' : harness) :
  dict_keys (h_cables h') = dict_keys (h_cables (st_harness st)) ->
  dict_keys (h_connectors h') = dict_keys (h_connectors (st_harness st)) ->
  names_grow st {| st_harness := h'; st_ferrule_counter := st_ferrule_counter st |}.
Proof.
  intros Hc Hk. split; [exact Hc|]. split; [cbn; lia|]. exists [].
  rewrite app_nil_r. split; [exact Hk|intros n []].
Qed.

Lemma connect_pairs_keys (ps : list (pin * pin)) :
  forall h h' dir fn tn, connect_pairs h dir fn tn ps = Ok h' ->
  dict_keys (h_cables h') = dict_keys (h_cables h) /\
  dict_keys (h_connectors h') = dict_keys (h_connectors h).
Proof.
  induction ps as [|[fp tp] r IH]; intros h h' dir fn tn; cbn [connect_pairs].
  - intros H. injection H as <-. split; reflexivity.
  - destruct (if dir then harness_connect h (Some (fn, fp)) tn tp None
              else harness_connect h None fn fp (Some (tn, tp))) as [h1|e] eqn:E;
      cbn [bind]; [|discriminate].
    intros H. destruct (IH h1 h' dir fn tn H) as [A B].
    assert (C : dict_keys (h_cables h1) = dict_keys (h_cables h) /\
                dict_keys (h_connectors h1) = dict_keys (h_connectors h))
      by (destruct dir; eapply harness_connect_keys; exact E).
    split; [rewrite A; apply C|rewrite B; apply C].
Qed.

Lemma loop_pairs_keys (ps : list (pin * pin)) :
  forall h h' name, loop_pairs h name ps = Ok h' ->
  h_cables h' = h_cables h /\ dict_keys (h_connectors h') = dict_keys (h_connectors h).
Proof.
  induction ps as [|[fp tp] r IH]; intros h h' name; cbn [loop_pairs].
  - intros H. injection H as <-. split; reflexivity.
  - unfold harness_loop. destruct (dict_get name (h_connectors h)) eqn:E;
      cbn [bind]; [|discriminate].
    intros H. destruct (IH _ h' name H) as [A B]. cbn [h_cables h_connectors] in A, B.
    split; [exact A|]. rewrite B. apply dict_keys_set_mem. unfold dict_mem. rewrite E.
    reflexivity.
Qed.

Lemma connect3_keys (ts : list (pin * pin * pin)) :
  forall h h' fn vn tn, connect3 h fn vn tn ts = Ok h' ->
  dict_keys (h_cables h') = dict_keys (h_cables h) /\
  dict_keys (h_connectors h') = dict_keys (h_connectors h).
Proof.
  induction ts as [|[[fp vp] tp] r IH]; intros h h' fn vn tn; cbn [connect3].
  - intros H. injection H as <-. split; reflexivity.
  - destruct (harness_connect h (Some (fn, fp)) vn vp (Some (tn, tp))) as [h1|e] eqn:E;
      cbn [bind]; [|discriminate].
    intros H. destruct (IH h1 h' fn vn tn H) as [A B].
    destruct (harness_connect_keys _ _ _ _ _ _ E) as [C D].
    split; congruence.
Qed.

Lemma add_ferrule_keys (h h' : harness) (fid : string) (p : connector_params) :
  add_ferrule h fid p = Ok h' ->
  h_cables h' = h_cables h /\
  exists extra, dict_keys (h_connectors h') = (dict_keys (h_connectors h) ++ extra)%list /\
                (forall n, In n extra -> n = fid).
Proof.
  unfold add_ferrule, add_connector. destruct (p_category p); [discriminate|].
  destruct (Connector fid (ferrule_template p)) as [c|e]; cbn [bind]; [|discriminate].
  intros H. injection H as <-. cbn [h_cables h_connectors]. split; [reflexivity|].
  apply dict_keys_set_extra.
Qed.

Lemma ferrule_loop_grow (cps : list pin) :
  forall st st' fer params w, ferrule_loop st fer params w cps = Ok st' -> names_grow st st'.
Proof.
  induction cps as [|cp r IH]; intros st st' fer params w; cbn [ferrule_loop].
  - intros H. injection H as <-. apply names_grow_refl.
  - destruct (add_ferrule (st_harness st) (ferrule_id (st_ferrule_counter st + 1)) params)
      as [h1|e] eqn:E1; cbn [bind]; [|discriminate].
    destruct (if fer
              then harness_connect h1 (Some (ferrule_id (st_ferrule_counter st + 1), PInt 1)) w cp None
              else harness_connect h1 None w cp (Some (ferrule_id (st_ferrule_counter st + 1), PInt 1)))
      as [h2|e] eqn:E2; cbn [bind]; [|discriminate].
    intros H. apply (names_grow_trans _ _ _ (names_grow_refl st)).
    eapply names_grow_trans; [|exact (IH _ st' fer params w H)].
    destruct (add_ferrule_keys _ _ _ _ E1) as [A [extra [B Bx]]].
    assert (C : dict_keys (h_cables h2) = dict_keys (h_cables h1) /\
                dict_keys (h_connectors h2) = dict_keys (h_connectors h1))
      by (destruct fer; eapply harness_connect_keys; exact E2).
    split; [cbn [st_harness]; rewrite (proj1 C), A; reflexivity|].
    split; [cbn [st_ferrule_counter]; lia|]. exists extra. cbn [st_harness st_ferrule_counter].
    split; [rewrite (proj2 C); exact B|].
    intros n Hn. exists (st_ferrule_counter st + 1). split; [exact (Bx n Hn)|lia].
Qed.

Lemma process2_stage1_grow (st st1 : state) (b1 b2 : bool) (h1 : result harness) :
  (forall h', h1 = Ok h' ->
     dict_keys (h_cables h') = dict_keys (h_cables (st_harness st)) /\
     dict_keys (h_connectors h') = dict_keys (h_connectors (st_harness st))) ->
  (if b1 then
     if b2 then raise (Exception "List length mismatch")
     else let* h := h1 in Ok {| st_harness := h; st_ferrule_counter := st_ferrule_counter st |}
   else Ok st) = Ok st1 ->
  names_grow st st1.
Proof.
  intros Hh. destruct b1.
  - destruct b2; [discriminate|]. destruct h1 as [h|e]; cbn [bind]; [|discriminate].
    intros H. injection H as <-. destruct (Hh h eq_refl) as [A B].
    apply names_grow_harness; assumption.
  - intros H. injection H as <-. apply names_grow_refl.
Qed.

Lemma process2_grow (doc : document) (st st' : state) (c0 c1 : element) :
  process2 doc st c0 c1 = Ok st' -> names_grow st st'.
Proof.
  unfold process2.
  destruct (check_keys2 c0); cbn [bind]; [|discriminate].
  destruct (check_keys2 c1); cbn [bind]; [|discriminate].
  destruct (normalize2 c0) as [[n0 p0]|]; cbn [bind]; [|discriminate].
  destruct (normalize2 c1) as [[n1 p1]|]; cbn [bind]; [|discriminate].
  cbv zeta.
  match goal with |- (if ?b then _ else _) = _ -> _ => destruct b; [discriminate|] end.
  destruct (expand p0) as [ps0|]; cbn [bind]; [|discriminate].
  destruct (expand p1) as [ps1|]; cbn [bind]; [|discriminate].
  match goal with
  | |- bind ?m ?k = Ok st' -> _ => destruct m as [st1|e] eqn:E1; cbn [bind]; [|discriminate]
  end.
  assert (G1 : names_grow st st1).
  { revert E1. apply process2_stage1_grow. intros h' Hh.
    destruct (check_designators doc [n0; n1] [SConnectors; SCables]
              || check_designators doc [n0; n1] [SCables; SConnectors]).
    - apply (connect_pairs_keys _ _ _ _ _ _ Hh).
    - destruct (loop_pairs_keys _ _ _ _ Hh) as [A B]. rewrite A. split; [reflexivity|exact B]. }
  match goal with |- (if ?b then _ else _) = _ -> _ => destruct b end; [|intros H; injection H as <-; exact G1].
  destruct (dict_get _ (doc_ferrules doc)) as [params|]; [|discriminate].
  intros H. exact (names_grow_trans _ _ _ G1 (ferrule_loop_grow _ _ _ _ _ _ H)).
Qed.

Lemma process_record_grow (doc : document) (st st' : state) (con : list element) :
  process_record doc st con = Ok st' -> names_grow st st'.
Proof.
  destruct con as [|c0 [|c1 [|c2 [|c3 t]]]]; cbn [process_record]; try discriminate.
  - apply process2_grow.
  - destruct (process3 doc (st_harness st) c0 c1 c2) as [h|e] eqn:E; cbn [bind]; [|discriminate].
    intros H. injection H as <-.
    unfold process3 in E.
    destruct (single_key c0) as [[f p0]|]; cbn [bind] in E; [|discriminate].
    destruct (single_key c1) as [[v p1]|]; cbn [bind] in E; [|discriminate].
    destruct (single_key c2) as [[w p2]|]; cbn [bind] in E; [|discriminate].
    match type of E with (if ?b then _ else _) = _ => destruct b; [discriminate|] end.
    destruct (expand p0); cbn [bind] in E; [|discriminate].
    destruct (expand p1); cbn [bind] in E; [|discriminate].
    destruct (expand p2); cbn [bind] in E; [|discriminate].
    match type of E with (if ?b then _ else _) = _ => destruct b; [discriminate|] end.
    destruct (connect3_keys _ _ _ _ _ _ E) as [A B].
    apply names_grow_harness; assumption.
Qed.

Lemma process_records_grow (doc : document) (cons : list (list element)) :
  forall st st', process_records doc st cons = Ok st' -> names_grow st st'.
Proof.
  induction cons as [|con r IH]; intros st st'; cbn [process_records].
  - intros H. injection H as <-. apply names_grow_refl.
  - destruct (process_record doc st con) as [st1|e] eqn:E; cbn [bind]; [|discriminate].
    intros H. exact (names_grow_trans _ _ _ (process_record_grow _ _ _ _ E) (IH _ _ H)).
Qed.

(** Resolving connection records never adds, removes or reorders a
    cable, and never removes or reorders a connector: the only new
    connectors are appended after the existing ones, and each is a ferrule
    "_F<i>" with i above the counter's value before the run and at most its
    value after it; the counter never decreases. *)
Theorem process_records_names (doc : document) (st st' : state)
  (cons : list (list element)) :
  process_records doc st cons = Ok st' ->
  dict_keys (h_cables (st_harness st')) = dict_keys (h_cables (st_harness st)) /\
  st_ferrule_counter st <= st_ferrule_counter st' /\
  exists extra,
    dict_keys (h_connectors (st_harness st')) =
      (dict_keys (h_connectors (st_harness st)) ++ extra)%list /\
    forall n, In n extra ->
      exists i, n = ferrule_id i /\ st_ferrule_counter st < i <= st_ferrule_counter st'.
Proof.
  intros H. destruct (process_records_grow doc cons st st' H) as [A [B [extra C]]].
  split; [exact A|]. split; [exact B|]. exists extra. exact C.
Qed.

Lemma process_records_names_witness :
  exists st', process_records ferrule_doc
      {| st_harness := declared_harness ferrule_doc; st_ferrule_counter := 0 |}
      (doc_connections ferrule_doc) = Ok st' /\
  dict_keys (h_cables (st_harness st')) = dict_keys (h_cables (declared_harness ferrule_doc)) /\
  0 <= st_ferrule_counter st' /\
  exists extra,
    dict_keys (h_connectors (st_harness st')) =
      (dict_keys (h_connectors (declared_harness ferrule_doc)) ++ extra)%list /\
    forall n, In n extra -> exists i, n = ferrule_id i /\ 0 < i <= st_ferrule_counter st'.
Proof.
  destruct (process_records ferrule_doc
      {| st_harness := declared_harness ferrule_doc; st_ferrule_counter := 0 |}
      (doc_connections ferrule_doc)) as [st'|e] eqn:E; [|vm_compute in E; discriminate].
  exists st'. split; [reflexivity|].
  exact (process_records_names ferrule_doc
           {| st_harness := declared_harness ferrule_doc; st_ferrule_counter := 0 |} st'
           (doc_connections ferrule_doc) E).
Defined.

(** ** BOM order and designators *)

Lemma compare_not_lt (a b : string) :
  String.compare a b <> Lt -> String.compare b a <> Gt.
Proof.
  rewrite (String.compare_antisym b a). destruct (String.compare a b); cbn; congruence.
Qed.

Lemma insert_entry_hd (x e : bom_entry) (l : list bom_entry) :
  HdRel (fun a b => String.compare (be_item a) (be_item b) <> Gt) x l ->
  String.compare (be_item x) (be_item e) <> Gt ->
  HdRel (fun a b => String.compare (be_item a) (be_item b) <> Gt) x (insert_entry e l).
Proof.
  intros Hh Hxe. destruct l as [|y r]; cbn [insert_entry].
  - constructor. exact Hxe.
  - destruct (String.compare (be_item e) (be_item y)); constructor;
      [exact (HdRel_inv Hh)|exact Hxe|exact (HdRel_inv Hh)].
Qed.

Lemma insert_entry_sorted (e : bom_entry) (l : list bom_entry) :
  Sorted (fun a b => String.compare (be_item a) (be_item b) <> Gt) l ->
  Sorted (fun a b => String.compare (be_item a) (be_item b) <> Gt) (insert_entry e l).
Proof.
  induction l as [|x r IH]; intros Hs; cbn [insert_entry].
  - constructor; constructor.
  - inversion Hs as [|? ? Hr Hh]; subst.
    destruct (String.compare (be_item e) (be_item x)) eqn:E.
    + constructor; [exact (IH Hr)|]. apply insert_entry_hd; [exact Hh|].
      apply compare_not_lt. rewrite E. discriminate.
    + constructor; [exact Hs|]. constructor. rewrite E. discriminate.
    + constructor; [exact (IH Hr)|]. apply insert_entry_hd; [exact Hh|].
      apply compare_not_lt. rewrite E. discriminate.
Qed.

Lemma sort_entries_sorted (l : list bom_entry) :
  Sorted (fun a b => String.compare (be_item a) (be_item b) <> Gt) (sort_entries l).
Proof.
  unfold sort_entries.
  assert (H : forall acc, Sorted (fun a b => String.compare (be_item a) (be_item b) <> Gt) acc ->
    Sorted (fun a b => String.compare (be_item a) (be_item b) <> Gt)
      (fold_left (fun acc e => insert_entry e acc) l acc)).
  { induction l as [|x r IH]; intros acc Hacc; cbn [fold_left]; [exact Hacc|].
    apply IH, insert_entry_sorted, Hacc. }
  apply H. constructor.
Qed.

(** [Harness.bom()] lists the connector lines first, sorted by item name
    (each append re-sorts them), then the cable and wire lines; those are
    sorted by item name when there is at least one bundle wire line (the
    only place where they are re-sorted), and otherwise are the cable
    lines in the order of their first declared cable. *)
Theorem bom_order (h : harness) :
  Sorted (fun a b => String.compare (be_item a) (be_item b) <> Gt)
         (bom_connectors (h_connectors h)) /\
  exists rest, bom h = (bom_connectors (h_connectors h) ++ rest)%list /\
    (bundle_items (h_cables h) <> [] ->
     Sorted (fun a b => String.compare (be_item a) (be_item b) <> Gt) rest) /\
    (bundle_items (h_cables h) = [] -> rest = bom_cable_items (h_cables h)).
Proof.
  split.
  - unfold bom_connectors.
    assert (H : forall tys acc,
      Sorted (fun a b => String.compare (be_item a) (be_item b) <> Gt) acc ->
      Sorted (fun a b => String.compare (be_item a) (be_item b) <> Gt)
        (fold_left (fun acc ty =>
           match filter (fun kv => connector_type_eqb (connector_type (snd kv)) ty)
                        (h_connectors h) with
           | (_, shared) :: _ =>
               sort_entries (acc ++ [{| be_item := "Connector" ++
                 (if truthy_str (c_type shared) then ", " ++ opt_str (c_type shared) else "") ++
                 (if truthy_str (c_subtype shared) then ", " ++ opt_str (c_subtype shared) else "") ++
                 (if negb (opt_str_eqb (c_category shared) (Some "ferrule"))
                  then ", " ++ str_Z (c_pincount shared) ++ " pins" else "") ++
                 (if truthy_str (c_color shared) then ", " ++ opt_str (c_color shared) else "");
                 be_qty := Z.of_nat (List.length (sort_strings (dict_keys
                   (filter (fun kv => connector_type_eqb (connector_type (snd kv)) ty)
                           (h_connectors h)))));
                 be_unit := "";
                 be_designators := if negb (opt_str_eqb (c_category shared) (Some "ferrule"))
                   then CList (sort_strings (dict_keys
                     (filter (fun kv => connector_type_eqb (connector_type (snd kv)) ty)
                             (h_connectors h))))
                   else CStr "";
                 be_part_number := c_part_number shared |}])%list
           | [] => acc
           end) tys acc)).
    { induction tys as [|ty r IH]; intros acc Hacc; cbn [fold_left]; [exact Hacc|].
      apply IH. destruct (filter _ (h_connectors h)) as [|[k sh] t]; [exact Hacc|].
      apply sort_entries_sorted. }
    apply H. constructor.
  - eexists. split; [reflexivity|]. split.
    + destruct (bundle_items (h_cables h)) as [|it r] eqn:Eb; [intros H; contradiction|].
      intros _. cbn [fold_left]. clear Eb.
      generalize (sort_entries_sorted (bom_cable_items (h_cables h) ++ [entry_of_item it])%list).
      generalize (sort_entries (bom_cable_items (h_cables h) ++ [entry_of_item it])%list).
      induction r as [|it' r' IH]; intros acc Hacc; cbn [fold_left]; [exact Hacc|].
      apply IH, sort_entries_sorted.
    + intros ->. reflexivity.
Qed.

Lemma bom_order_witness :
  map be_item (bom_connectors (h_connectors (declared_harness bom_doc))) =
    ["Connector, A, 2 pins"; "Connector, B, 2 pins"] /\
  bundle_items (h_cables (declared_harness bom_doc)) <> [] /\
  exists rest, bom (declared_harness bom_doc) =
    (bom_connectors (h_connectors (declared_harness bom_doc)) ++ rest)%list /\
    map be_item rest = ["Cable, 2 wires"; "Wire, , BU"; "Wire, , RD"] /\
    Sorted (fun a b => String.compare (be_item a) (be_item b) <> Gt) rest.
Proof.
  assert (Hb : bundle_items (h_cables (declared_harness bom_doc)) <> [])
    by (vm_compute; discriminate).
  split; [vm_compute; reflexivity|]. split; [exact Hb|].
  destruct (proj2 (bom_order (declared_harness bom_doc))) as [rest [H1 [H2 _]]].
  exists rest. split; [exact H1|]. split; [|exact (H2 Hb)].
  assert (E : rest = skipn 2 (bom (declared_harness bom_doc))).
  { rewrite H1. assert (L : List.length (bom_connectors (h_connectors (declared_harness bom_doc))) = 2%nat)
      by (vm_compute; reflexivity).
    rewrite <- L, skipn_app, skipn_all, Nat.sub_diag. reflexivity. }
  rewrite E. vm_compute. reflexivity.
Defined.








Section GroupPerm.
Context {K A : Type} (eqb : K -> K -> bool) (f : A -> K).
Hypothesis eqb_spec : forall a b, eqb a b = true <-> a = b.



End GroupPerm.


